(** * A shallow embedding of [challenge_1b.py]

    The program parses PDF files into heading-delimited sections
    ([DocumentParser]), scores them against a persona/task query, picks a
    diverse top five and formats a report ([DocumentAnalyst]).

    Conventions of the embedding.
    - A Python [str] is a list of characters, [str := list ascii]; a
      character is a code point below 256 (the Latin-1 part of Unicode), which
      [str.lower], [str.strip], [\s] and [\d] map into itself.
    - A Python [float] is a binary64 primitive float; a Python [int] is a [Z],
      except list positions and lengths, which are [nat].
    - A Python [dict] with a fixed set of keys is a record; [doc_count], the
      one dict used as a map, is a [gmap].
    - Code that may raise runs in the [result] monad; a [try]/[except] is a
      match on its outcome.
    - The two external services, PyMuPDF and the sentence-embedding model, are
      data and parameters: a PDF file is what [fitz.open] and [get_text] give
      for it, and the cosine score is a function of query and section text. *)

From Stdlib Require Import Floats ZArith List Ascii String Bool Lia.
From stdpp Require Import base option list sorting gmap strings.

Set Warnings "-inexact-float,-register-all".

Local Open Scope Z_scope.

(** ** Python strings *)

Abbreviation str := (list ascii) (only parsing).

(** A string literal. *)
Definition py (s : string) : str := list_ascii_of_string s.

Definition ord (c : ascii) : N := N_of_ascii c.

Definition in_range (lo hi : N) (c : ascii) : bool :=
  (N.leb lo (ord c) && N.leb (ord c) hi)%bool.

(** [str.isspace] on one character: what [str.strip] removes and what [\s]
    matches in a [str] pattern. Below 256 these are TAB, LF, VT, FF, CR, the
    four separators FS..US, the space, NEL and the no-break space. *)
Definition is_space (c : ascii) : bool :=
  (in_range 9 13 c || in_range 28 32 c
   || N.eqb (ord c) 133 || N.eqb (ord c) 160)%bool.

(** [\d] in a [str] pattern: below 256 the decimal digits are 0-9. *)
Definition is_digit (c : ascii) : bool := in_range 48 57 c.

(** [[A-Za-z]]. *)
Definition is_letter (c : ascii) : bool :=
  (in_range 65 90 c || in_range 97 122 c)%bool.

Definition one_of (cs : str) (c : ascii) : bool :=
  existsb (Ascii.eqb c) cs.

(** [[IVXLCDMivxlcdm]]. *)
Definition is_roman (c : ascii) : bool := one_of (py "IVXLCDMivxlcdm") c.

(** [[\.\)]]. *)
Definition is_marker_sep (c : ascii) : bool := one_of (py ".)") c.

(** [str.lower] on one character: A-Z, and the Latin-1 capitals
    U+00C0..U+00DE without the multiplication sign U+00D7, move up by 32. *)
Definition lower_char (c : ascii) : ascii :=
  if (in_range 65 90 c
      || (in_range 192 222 c && negb (N.eqb (ord c) 215)))%bool
  then ascii_of_N (ord c + 32) else c.

Definition lower (s : str) : str := map lower_char s.

Definition str_eqb (a b : str) : bool := bool_decide (a = b).

(** [s.startswith(p)]. *)
Fixpoint startswith (p s : str) : bool :=
  match p, s with
  | [], _ => true
  | _ :: _, [] => false
  | a :: p', b :: s' => (Ascii.eqb a b && startswith p' s')%bool
  end.

(** [sub in s] on strings: [sub] occurs somewhere in [s]. *)
Fixpoint str_contains (sub s : str) : bool :=
  (startswith sub s ||
   match s with
   | [] => false
   | _ :: s' => str_contains sub s'
   end)%bool.

(** [s.lstrip()], [s.rstrip()], [s.strip()]. *)
Fixpoint lstrip (s : str) : str :=
  match s with
  | [] => []
  | c :: s' => if is_space c then lstrip s' else s
  end.

Definition rstrip (s : str) : str := reverse (lstrip (reverse s)).

Definition strip (s : str) : str := rstrip (lstrip s).

(** [sep.join(parts)]. *)
Fixpoint join (sep : str) (parts : list str) : str :=
  match parts with
  | [] => []
  | [p] => p
  | p :: rest => p ++ sep ++ join sep rest
  end.

(** [s.rfind(c)] for a one-character [c]: the highest index of [c], or -1. *)
Fixpoint rfind (c : ascii) (s : str) : Z :=
  match s with
  | [] => -1
  | x :: s' =>
      let r := rfind c s' in
      if 0 <=? r then r + 1 else if Ascii.eqb x c then 0 else -1
  end.

(** The slice [l[:n]] for a Python int [n]: a negative [n] counts from the
    end, and both ends are clamped. *)
Definition slice_to {A} (l : list A) (n : Z) : list A :=
  if 0 <=? n then take (Z.to_nat n) l
  else take (length l - Z.to_nat (- n))%nat l.

(** [re.sub(r'\s+', ' ', s)]: every maximal run of whitespace becomes one
    space. [in_run] says the previous character was whitespace. *)
Fixpoint collapse_from (in_run : bool) (s : str) : str :=
  match s with
  | [] => []
  | c :: s' =>
      if is_space c
      then (if in_run then collapse_from true s'
            else " "%char :: collapse_from true s')
      else c :: collapse_from false s'
  end.

Definition collapse_whitespace (s : str) : str := collapse_from false s.

(** ** Regular expressions

    The three heading patterns use character classes, concatenation,
    repetition and option only, so [re.match] finds a match exactly when some
    prefix of the text is in the language of the pattern. The matcher below
    decides that with derivatives. *)

Inductive regex : Type :=
  | Void : regex
  | Eps : regex
  | Class (p : ascii -> bool) : regex
  | Cat (r1 r2 : regex) : regex
  | Alt (r1 r2 : regex) : regex
  | Star (r : regex) : regex.

Definition Plus (r : regex) : regex := Cat r (Star r).
Definition Opt (r : regex) : regex := Alt r Eps.

Fixpoint nullable (r : regex) : bool :=
  match r with
  | Void => false
  | Eps => true
  | Class _ => false
  | Cat r1 r2 => (nullable r1 && nullable r2)%bool
  | Alt r1 r2 => (nullable r1 || nullable r2)%bool
  | Star _ => true
  end.

Fixpoint deriv (c : ascii) (r : regex) : regex :=
  match r with
  | Void => Void
  | Eps => Void
  | Class p => if p c then Eps else Void
  | Cat r1 r2 =>
      if nullable r1
      then Alt (Cat (deriv c r1) r2) (deriv c r2)
      else Cat (deriv c r1) r2
  | Alt r1 r2 => Alt (deriv c r1) (deriv c r2)
  | Star r1 => Cat (deriv c r1) (Star r1)
  end.

(** [re.match(r, s) is not None]. *)
Fixpoint re_match (r : regex) (s : str) : bool :=
  (nullable r ||
   match s with
   | [] => false
   | c :: s' => re_match (deriv c r) s'
   end)%bool.

(** The language of a pattern, as the reference semantics of [re_match]. *)
Inductive lang : regex -> str -> Prop :=
  | lang_eps : lang Eps []
  | lang_class p c : p c = true -> lang (Class p) [c]
  | lang_cat r1 r2 s1 s2 : lang r1 s1 -> lang r2 s2 -> lang (Cat r1 r2) (s1 ++ s2)
  | lang_alt_l r1 r2 s : lang r1 s -> lang (Alt r1 r2) s
  | lang_alt_r r1 r2 s : lang r2 s -> lang (Alt r1 r2) s
  | lang_star_nil r : lang (Star r) []
  | lang_star_cons r s1 s2 : lang r s1 -> lang (Star r) s2 -> lang (Star r) (s1 ++ s2).

(** [r'^\d+(\.\d+)*[\.\)]?\s+'] *)
Definition decimal_outline : regex :=
  Cat (Plus (Class is_digit))
    (Cat (Star (Cat (Class (one_of (py "."))) (Plus (Class is_digit))))
       (Cat (Opt (Class is_marker_sep)) (Plus (Class is_space)))).

(** [r'^[IVXLCDMivxlcdm]+[\.\)]\s+'] *)
Definition roman_marker : regex :=
  Cat (Plus (Class is_roman)) (Cat (Class is_marker_sep) (Plus (Class is_space))).

(** [r'^[A-Za-z][\.\)]\s+'] *)
Definition letter_marker : regex :=
  Cat (Class is_letter) (Cat (Class is_marker_sep) (Plus (Class is_space))).

(** ** Exceptions *)

Inductive exn : Type :=
  | FileDataError      (* fitz.open or get_text on a broken document *)
  | ZeroDivisionError
  | IndexError
  | RuntimeError.      (* util.pytorch_cos_sim on an empty batch of sections *)

Inductive result (A : Type) : Type :=
  | Ok (a : A)
  | Raise (e : exn).
Arguments Ok {A} a.
Arguments Raise {A} e.

(** Sequencing: an exception skips the rest. With these instances
    [x ← m; k] is stdpp's notation for [bind]. *)
Definition bind {A B} (k : A -> result B) (m : result A) : result B :=
  match m with
  | Ok a => k a
  | Raise e => Raise e
  end.

#[global] Instance result_bind : MBind result := @bind.
#[global] Instance result_ret : MRet result := @Ok.

(** A [for] loop whose body may raise: the first exception ends the loop. *)
Fixpoint for_each {A S} (body : S -> A -> result S) (l : list A) (s : S) : result S :=
  match l with
  | [] => Ok s
  | a :: l' => s' ← body s a; for_each body l' s'
  end.

(** ** What PyMuPDF gives for a PDF file *)

(** One text span of a line: the keys of the span dict that the parser reads
    ([bbox_x0] is [span['bbox'][0]]). *)
Record Span : Type := {
  span_text : str;
  size : float;
  flags : Z;
  bbox_x0 : float
}.

Record Line : Type := { spans : list Span }.

(** A block dict; an image block has no ["lines"] key. *)
Record Block : Type := { lines : option (list Line) }.

(** A page, as seen through its two [get_text] calls:
    [page.get_text("dict")["blocks"]], read by
    [_calculate_average_font_size], and the same with
    [flags=TEXTFLAGS_DICT & ~TEXT_PRESERVE_LIGATURES], read by
    [extract_structure]. Either call may raise. *)
Record Page : Type := {
  get_text_dict : result (list Block);
  get_text_dict_no_ligatures : result (list Block)
}.

(** The outcome of [fitz.open(pdf_path)]: the pages of the document, or the
    exception raised for a missing or corrupt file. *)
Definition PdfFile : Type := result (list Page).

(** ** DocumentParser *)

Inductive Level : Type := title | H1.

(** The section dict built by the parser. *)
Record Heading : Type := {
  level : Level;
  text : str;
  page : nat;
  content : str
}.

Definition _is_heading_pattern (text : str) : bool :=
  match text with
  | [] => false
  | _ => existsb (fun pattern => re_match pattern text)
           [decimal_outline; roman_marker; letter_marker]
  end.

(** [float(n)] for a length [n]. *)
Definition float_of_nat (n : nat) : float :=
  PrimFloat.of_uint63 (Uint63.of_Z (Z.of_nat n)).

(** The spans visited by the loops of [_calculate_average_font_size], in
    order. *)
Definition block_spans (b : Block) : list Span :=
  match lines b with
  | None => []
  | Some ls => concat (map spans ls)
  end.

Definition collect_spans (doc : list Page) : result (list Span) :=
  for_each (fun acc pg =>
              blocks ← get_text_dict pg;
              Ok (acc ++ concat (map block_spans blocks)))
           doc [].

(** [sum] over floats starts from the int 0 and adds from left to right
    (from Python 3.12 on [sum] compensates the rounding of the additions; no
    property below depends on how the sum is rounded). *)
Definition sum_float (l : list float) : float :=
  fold_left PrimFloat.add l 0%float.

Definition sum_nat (l : list nat) : nat := fold_left Nat.add l 0%nat.

Definition _calculate_average_font_size (doc : list Page) : result float :=
  sps ← collect_spans doc;
  let font_sizes := map size sps in
  let counts := map (fun s => length (span_text s)) sps in
  match counts with
  | [] => Ok 12.0%float
  | _ =>
      let total := sum_nat counts in
      if Nat.eqb total 0 then Raise ZeroDivisionError
      else Ok (PrimFloat.div
                 (sum_float (map (fun sc => PrimFloat.mul (fst sc) (float_of_nat (snd sc)))
                               (combine font_sizes counts)))
                 (float_of_nat total))
  end.

(** [sorted(l, key=key)] for float keys: stable, ascending. [insert_by] puts
    [x], which comes before all of [l] in the input, in front of the first
    element whose key is not smaller. (For keys that are numbers this is the
    order of Python's sort; with a key that is not a number the two may
    differ.) *)
Fixpoint insert_by {A} (key : A -> float) (x : A) (l : list A) : list A :=
  match l with
  | [] => [x]
  | y :: l' =>
      if PrimFloat.ltb (key y) (key x) then y :: insert_by key x l'
      else x :: l
  end.

Definition sorted_by {A} (key : A -> float) (l : list A) : list A :=
  fold_right (insert_by key) [] l.

(** [sorted(l, key=key, reverse=True)]: the reverse of the stable ascending
    sort of the reversed list, so equal keys keep their input order. *)
Definition sorted_by_reverse {A} (key : A -> float) (l : list A) : list A :=
  rev (sorted_by key (rev l)).

(** The heading test of [extract_structure], lines 45-50. *)
Definition is_heading (font_size : float) (is_bold : bool) (line_text : str)
    (avg_font_size : float) : bool :=
  (PrimFloat.ltb (avg_font_size * 1.1)%float font_size
   || (is_bold && PrimFloat.ltb (avg_font_size * 0.9)%float font_size)
   || _is_heading_pattern line_text
   || (Nat.ltb (length line_text) 100 && is_bold))%bool.

(** The state of the segmentation loop: [sections] and [current_heading]. *)
Record SegState : Type := {
  sections : list Heading;
  current_heading : Heading
}.

Definition seed_heading : Heading :=
  {| level := title; text := py "Introduction"; page := 0; content := [] |}.

Definition line_text_of (ln : Line) : str :=
  strip (join (py " ") (map span_text (sorted_by bbox_x0 (spans ln)))).

(** The body of the innermost loop, for one line of page [page_num]. *)
Definition process_line (avg_font_size : float) (page_num : nat)
    (st : SegState) (ln : Line) : result SegState :=
  let sorted_spans := sorted_by bbox_x0 (spans ln) in
  let line_text := line_text_of ln in
  match line_text with
  | [] => Ok st
  | _ =>
      match sorted_spans with
      | [] => Raise IndexError
      | first_span :: _ =>
          let font_size := size first_span in
          let is_bold := negb (Z.eqb (Z.land (flags first_span) 16) 0) in
          if (is_heading font_size is_bold line_text avg_font_size
              && negb (str_eqb line_text (py "Introduction")))%bool
          then
            let cur := current_heading st in
            Ok {| sections :=
                    match strip (content cur) with
                    | [] => sections st
                    | _ => sections st ++ [cur]
                    end;
                  current_heading :=
                    {| level := H1; text := line_text; page := page_num;
                       content := [] |} |}
          else
            let cur := current_heading st in
            Ok {| sections := sections st;
                  current_heading :=
                    {| level := level cur; text := text cur; page := page cur;
                       content := content cur ++ line_text ++ py " " |} |}
      end
  end.

Definition process_block (avg_font_size : float) (page_num : nat)
    (st : SegState) (b : Block) : result SegState :=
  match lines b with
  | None => Ok st
  | Some ls => for_each (process_line avg_font_size page_num) ls st
  end.

Definition process_page (avg_font_size : float)
    (st : SegState) (numbered : nat * Page) : result SegState :=
  blocks ← get_text_dict_no_ligatures (snd numbered);
  for_each (process_block avg_font_size (fst numbered)) blocks st.

(** [enumerate(l)]. *)
Definition enumerate {A} (l : list A) : list (nat * A) :=
  imap (fun i x => (i, x)) l.

(** The [try] block of [extract_structure]. *)
Definition extract_structure_try (pdf : PdfFile) : result (list Heading) :=
  doc ← pdf;
  avg_font_size ← _calculate_average_font_size doc;
  st ← for_each (process_page avg_font_size) (enumerate doc)
          {| sections := []; current_heading := seed_heading |};
  match strip (content (current_heading st)) with
  | [] => Ok (sections st)
  | _ => Ok (sections st ++ [current_heading st])
  end.

(** [extract_structure]: [except Exception] prints the error and returns
    the empty list. *)
Definition extract_structure (pdf : PdfFile) : list Heading :=
  match extract_structure_try pdf with
  | Ok sections => sections
  | Raise _ => []
  end.

(** ** DocumentAnalyst *)

(** A pooled section: the parser's dict with the ["document"] and
    ["relevance"] keys that [analyze] adds. *)
Record Section : Type := {
  parsed : Heading;
  document : str;
  relevance : float
}.

Definition boost_keywords : list str :=
  map py
    ["coastal"; "beach"; "nightlife"; "entertainment"; "bar"; "club";
     "activities"; "things to do"; "comprehensive guide"; "cities";
     "culinary"; "cooking"; "wine"; "group"; "friends"; "young";
     "packing"; "tips"; "tricks"; "practical"]%string.

(** The test of line 131 for one keyword. *)
Definition keyword_matches (title_lower content_lower keyword : str) : bool :=
  (str_contains keyword title_lower || str_contains keyword content_lower)%bool.

(** Lines 117-132 for one section: the relevance starts at the cosine score
    and the loop over [boost_keywords] adds 0.1 at each keyword that
    matches. *)
Definition boosted_relevance (cosine_score : float) (h : Heading) : float :=
  let title_lower := lower (text h) in
  let content_lower := lower (content h) in
  fold_left
    (fun rel keyword =>
       if keyword_matches title_lower content_lower keyword
       then (rel + 0.1)%float else rel)
    boost_keywords cosine_score.

(** Python's [==] on two section dicts, as [section not in selected] uses
    it: key by key. (Python finds a dict in a list that holds it also when its
    relevance is not a number; here it is then not found. The two agree on all
    scores that are numbers.) *)
Definition level_eqb (a b : Level) : bool :=
  match a, b with
  | title, title | H1, H1 => true
  | _, _ => false
  end.

Definition heading_eqb (a b : Heading) : bool :=
  (level_eqb (level a) (level b) && str_eqb (text a) (text b)
   && Nat.eqb (page a) (page b) && str_eqb (content a) (content b))%bool.

Definition section_eqb (a b : Section) : bool :=
  (heading_eqb (parsed a) (parsed b) && str_eqb (document a) (document b)
   && PrimFloat.eqb (relevance a) (relevance b))%bool.

Definition section_in (s : Section) (selected : list Section) : bool :=
  existsb (section_eqb s) selected.

(** The state of the first loop of [_select_diverse_sections]. *)
Record SelectionState : Type := {
  selected : list Section;
  doc_count : gmap str nat
}.

(** [doc_count.get(doc_name, 0)]. *)
Definition get_count (m : gmap str nat) (doc_name : str) : nat :=
  default 0%nat (m !! doc_name).

Definition pass1_step (max_sections : Z) (st : SelectionState) (section : Section)
    : SelectionState :=
  let doc_name := document section in
  if (Nat.ltb (get_count (doc_count st) doc_name) 2
      && Z.ltb (Z.of_nat (length (selected st))) max_sections)%bool
  then {| selected := selected st ++ [section];
          doc_count := <[doc_name := (get_count (doc_count st) doc_name + 1)%nat]>
                         (doc_count st) |}
  else st.

Definition pass1 (ranked_sections : list Section) (max_sections : Z) : SelectionState :=
  fold_left (pass1_step max_sections) ranked_sections
    {| selected := []; doc_count := ∅ |}.

(** The second loop, with its [break]. *)
Fixpoint pass2 (ranked_sections : list Section) (max_sections : Z)
    (selected : list Section) : list Section :=
  match ranked_sections with
  | [] => selected
  | section :: rest =>
      if Z.leb max_sections (Z.of_nat (length selected)) then selected
      else if section_in section selected then pass2 rest max_sections selected
      else pass2 rest max_sections (selected ++ [section])
  end.

Definition _select_diverse_sections (ranked_sections : list Section)
    (max_sections : Z) : list Section :=
  slice_to
    (pass2 ranked_sections max_sections
       (selected (pass1 ranked_sections max_sections)))
    max_sections.

Module ExtractedSection.
Record t : Type := {
  document : str;
  section_title : str;
  importance_rank : nat;
  page_number : nat
}.
End ExtractedSection.

Module SubSection.
Record t : Type := {
  document : str;
  refined_text : str;
  page_number : nat
}.
End SubSection.

Definition _format_extracted_sections (selected_sections : list Section)
    : list ExtractedSection.t :=
  map (fun '(i, s) =>
         {| ExtractedSection.document := document s;
            ExtractedSection.section_title := text (parsed s);
            ExtractedSection.importance_rank := i + 1;
            ExtractedSection.page_number := page (parsed s) + 1 |})
      (enumerate selected_sections).

(** Lines 193-212: the refined text of one section body. The [sentences]
    list of line 196 is never read, so it is left out. *)
Definition refine_text (section_content : str) : str :=
  let content := strip (collapse_whitespace section_content) in
  if Nat.ltb 500 (length content) then
    let refined_text := take 400 content in
    let last_sentence_end :=
      Z.max (Z.max (rfind "."%char refined_text) (rfind "!"%char refined_text))
            (rfind "?"%char refined_text) in
    if 200 <? last_sentence_end
    then slice_to refined_text (last_sentence_end + 1)
    else take 300 content ++ py "..."
  else content.

Definition _format_sub_sections (top_sections : list Section) : list SubSection.t :=
  map (fun section =>
         {| SubSection.document := document section;
            SubSection.refined_text := refine_text (content (parsed section));
            SubSection.page_number := page (parsed section) + 1 |})
      top_sections.

(** A JSON value as [json.load] returns it. *)
Inductive Json : Type :=
  | JNull : Json
  | JBool (b : bool) : Json
  | JInt (n : Z) : Json
  | JFloat (x : float) : Json
  | JStr (s : str) : Json
  | JList (items : list Json) : Json
  | JDict (items : list (str * Json)) : Json.

(** Python truth value of a JSON value: [if challenge_info:]. *)
Definition truthy (v : Json) : bool :=
  match v with
  | JNull => false
  | JBool b => b
  | JInt n => negb (Z.eqb n 0)
  | JFloat x => negb (PrimFloat.eqb x 0%float)
  | JStr s => match s with [] => false | _ => true end
  | JList items => match items with [] => false | _ => true end
  | JDict items => match items with [] => false | _ => true end
  end.

Module Metadata.
(** The ["metadata"] dict; an absent ["challenge_info"] key is [None]. *)
Record t : Type := {
  input_documents : list str;
  persona : str;
  job_to_be_done : str;
  processing_timestamp : str;
  challenge_info : option Json
}.
End Metadata.

Record Report : Type := {
  metadata : Metadata.t;
  extracted_sections : list ExtractedSection.t;
  subsection_analysis : list SubSection.t
}.

(** The input request, [challenge_1b_input.json], with the keys [main]
    reads; [challenge_info] is [None] when the key is absent. *)
Record Request : Type := {
  documents : list str;
  persona_role : str;
  job_task : str;
  request_challenge_info : option Json
}.

Section Analyze.

(** The embedding service: the cosine similarity of the embeddings of a
    query and of a section text. *)
Variable cos_sim : str -> str -> float.

(** [time.strftime("%Y-%m-%dT%H:%M:%S.%fZ", time.gmtime())] at the time of
    the run. *)
Variable strftime_now : str.

Definition enhanced_query (persona_role job_task : str) : str :=
  py "Role: " ++ persona_role ++ py ". Task: " ++ job_task ++
  py ". Focus on activities, coastal adventures, nightlife, dining, cities, practical tips for young adults traveling together in groups.".

(** Line 108: the title twice, then the content. *)
Definition combined_text (h : Heading) : str :=
  text h ++ py " " ++ text h ++ py " " ++ content h.

(** Lines 91-97: a document is a file name and what is at its path. *)
Definition all_sections (docs : list (str * PdfFile)) : list (str * Heading) :=
  concat (map (fun d => map (fun h => (fst d, h)) (extract_structure (snd d))) docs).

(** Lines 116-132 for one pooled section. *)
Definition score_section (query : str) (dh : str * Heading) : Section :=
  {| parsed := snd dh;
     document := fst dh;
     relevance := boosted_relevance (cos_sim query (combined_text (snd dh))) (snd dh) |}.

Definition ranked_sections (docs : list (str * PdfFile))
    (persona_role job_task : str) : list Section :=
  sorted_by_reverse relevance
    (map (score_section (enhanced_query persona_role job_task)) (all_sections docs)).

Definition analyze_selection (docs : list (str * PdfFile))
    (persona_role job_task : str) : list Section :=
  _select_diverse_sections (ranked_sections docs persona_role job_task) 5.

(** Lines 116-155 of [analyze]: the report built from the pooled sections and
    their scores. It is the report of every run that gets past line 114; see
    [analyze_run] for the run that does not. *)
Definition analyze (doc_paths : list (str * PdfFile)) (persona_role job_task : str)
    (challenge_info : option Json) : Report :=
  let selected_sections := analyze_selection doc_paths persona_role job_task in
  {| metadata :=
       {| Metadata.input_documents := map fst doc_paths;
          Metadata.persona := persona_role;
          Metadata.job_to_be_done := job_task;
          Metadata.processing_timestamp := slice_to strftime_now (-3) ++ py "Z";
          Metadata.challenge_info :=
            match challenge_info with
            | Some info => if truthy info then Some info else None
            | None => None
            end |};
     extracted_sections := _format_extracted_sections selected_sections;
     subsection_analysis := _format_sub_sections selected_sections |}.

(** Line 114, [util.pytorch_cos_sim(query_embedding, section_embeddings)[0]]:
    one score per section text. When no section was pooled the batch of
    embeddings is empty and the matrix product raises [RuntimeError]. *)
Definition cosine_scores (query : str) (section_texts : list str) : result (list float) :=
  match section_texts with
  | [] => Raise RuntimeError
  | _ => Ok (map (cos_sim query) section_texts)
  end.

(** The method [analyze] as it runs, lines 88-155: it raises at line 114
    when no section was pooled, and otherwise returns the report that
    [analyze] above builds from the same scores, read section by section. The
    exception is not caught, neither here nor in [main]: no report is
    written. *)
Definition analyze_run (doc_paths : list (str * PdfFile)) (persona_role job_task : str)
    (challenge_info : option Json) : result Report :=
  _ ← cosine_scores (enhanced_query persona_role job_task)
        (map (fun dh => combined_text (snd dh)) (all_sections doc_paths));
  Ok (analyze doc_paths persona_role job_task challenge_info).

(** [main], from the parsed request to the report that is written out;
    [pdf_dir] gives what is at [pdf_dir / fname]. The file names of the
    request are taken to be plain names, so that [doc_path.name] is the name
    itself. *)
Definition main (pdf_dir : str -> PdfFile) (input_data : Request) : Report :=
  let pdf_paths := map (fun fname => (fname, pdf_dir fname)) (documents input_data) in
  let challenge_info := default (JDict []) (request_challenge_info input_data) in
  analyze pdf_paths (persona_role input_data) (job_task input_data)
    (Some challenge_info).

End Analyze.

(** ** Notions used to state the properties *)

(** The text starts with a heading marker: a prefix of it is a decimal
    outline number, a roman numeral marker or a single-letter marker. *)
Definition starts_with_marker (text : str) : Prop :=
  exists prefix rest, text = prefix ++ rest /\
    (lang decimal_outline prefix \/ lang roman_marker prefix \/ lang letter_marker prefix).

(** One application of the keyword boost. *)
Definition add_boost (rel : float) : float := (rel + 0.1)%float.

(** How many of the [boost_keywords] occur in the lower-cased title or
    content of a section. *)
Definition boost_count (h : Heading) : nat :=
  length (List.filter (keyword_matches (lower (text h)) (lower (content h)))
            boost_keywords).

(** A section headed "Beach Bars": two keywords, [beach] and [bar], occur in
    its title. *)
Definition beach_bars : Heading :=
  {| level := H1; text := py "Beach Bars"; page := 2;
     content := py "Open until late. " |}.

(** How many sections of document [doc_name] a selection holds. *)
Definition count_doc (doc_name : str) (l : list Section) : nat :=
  length (List.filter (fun s => str_eqb (document s) doc_name) l).

(** [x] stands before [y] in [l]. *)
Definition precedes {A} (x y : A) (l : list A) : Prop :=
  exists i j, (i < j)%nat /\ l !! i = Some x /\ l !! j = Some y.

(** The list is in descending order of relevance. *)
Fixpoint sorted_by_relevance_desc (l : list Section) : bool :=
  match l with
  | [] => true
  | a :: l' =>
      (match l' with
       | [] => true
       | b :: _ => PrimFloat.leb (relevance b) (relevance a)
       end && sorted_by_relevance_desc l')%bool
  end.

(** The scenario of two documents: four sections of [a.pdf] that all score
    above the three sections of [b.pdf]. *)
Definition scenario_section (doc_name : string) (n : nat) (rel : float) : Section :=
  {| parsed := {| level := H1; text := py "Part"; page := n; content := py "Body. " |};
     document := py doc_name;
     relevance := rel |}.

Definition a1 : Section := scenario_section "a.pdf" 1 0.9.
Definition a2 : Section := scenario_section "a.pdf" 2 0.8.
Definition a3 : Section := scenario_section "a.pdf" 3 0.7.
Definition a4 : Section := scenario_section "a.pdf" 4 0.6.
Definition b1 : Section := scenario_section "b.pdf" 1 0.5.
Definition b2 : Section := scenario_section "b.pdf" 2 0.4.
Definition b3 : Section := scenario_section "b.pdf" 3 0.3.

Definition scenario_ranked : list Section := [a1; a2; a3; a4; b1; b2; b3].

(** The selection holds at most [max_sections] sections, and none when
    [max_sections] is negative. *)
Definition within (max_sections : Z) (sel : list Section) : Prop :=
  Z.of_nat (length sel) <= Z.max 0 max_sections.

(** The invariant of the first loop: [doc_count] holds, for each document,
    the number of its sections selected so far, and that number is at most
    2. *)
Definition pass1_invariant (st : SelectionState) : Prop :=
  forall doc_name,
    get_count (doc_count st) doc_name = count_doc doc_name (selected st)
    /\ (count_doc doc_name (selected st) <= 2)%nat.

(** A sentence-terminal punctuation mark. *)
Definition is_sentence_end (c : ascii) : Prop :=
  c = "."%char \/ c = "!"%char \/ c = "?"%char.

(** Position [i] holds the last sentence-terminal mark of [window]. *)
Definition last_sentence_end_at (window : str) (i : nat) : Prop :=
  (exists c, window !! i = Some c /\ is_sentence_end c)
  /\ forall j c, (i < j)%nat -> window !! j = Some c -> ~ is_sentence_end c.

Definition no_sentence_end (window : str) : Prop :=
  forall j c, window !! j = Some c -> ~ is_sentence_end c.

(** Whitespace is collapsed and trimmed: the only whitespace characters
    are single spaces, and none stands at either end. *)
Definition normalized (s : str) : Prop :=
  (forall c, c ∈ s -> is_space c = true -> c = " "%char)
  /\ (forall i, s !! i = Some " "%char -> s !! S i <> Some " "%char)
  /\ (forall c, head s = Some c -> is_space c = false)
  /\ (forall c, last s = Some c -> is_space c = false).

Definition not_space (c : ascii) : bool := negb (is_space c).

(** The body of a section is not blank. *)
Definition nonblank (h : Heading) : Prop := strip (content h) <> [].

(** What [extract_structure] does when the loops end: the current section is
    appended unless its body is blank. *)
Definition close_current (st : SegState) : list Heading :=
  match strip (content (current_heading st)) with
  | [] => sections st
  | _ => sections st ++ [current_heading st]
  end.

(** A document whose only span is empty: one page, one block, one line. *)
Definition empty_span : Span :=
  {| span_text := []; size := 10%float; flags := 0; bbox_x0 := 72%float |}.

Definition page_of_spans (sps : list Span) : Page :=
  let blocks := [ {| lines := Some [ {| spans := sps |} ] |} ] in
  {| get_text_dict := Ok blocks; get_text_dict_no_ligatures := Ok blocks |}.

Definition empty_span_doc : list Page := [page_of_spans [empty_span]].

(** A document that breaks on its second page, after a first page with a
    body line and a bold heading. *)
Definition body_span : Span :=
  {| span_text := py "Some opening words that are not a heading";
     size := 10%float; flags := 0; bbox_x0 := 72%float |}.

Definition bold_span : Span :=
  {| span_text := py "Nightlife"; size := 14%float; flags := 16; bbox_x0 := 72%float |}.

Definition broken_page : Page :=
  {| get_text_dict := Ok []; get_text_dict_no_ligatures := Raise FileDataError |}.

Definition half_broken_doc : list Page :=
  [ {| get_text_dict := Ok [ {| lines := Some [ {| spans := [body_span] |};
                                                {| spans := [bold_span] |};
                                                {| spans := [body_span] |} ] |} ];
       get_text_dict_no_ligatures :=
         Ok [ {| lines := Some [ {| spans := [body_span] |};
                                 {| spans := [bold_span] |};
                                 {| spans := [body_span] |} ] |} ] |};
    broken_page ].

(** The same document without its broken page. *)
Definition sound_doc : list Page := take 1 half_broken_doc.

(** No whitespace at either end. *)
Definition trimmed (s : str) : Prop :=
  (forall c, head s = Some c -> is_space c = false)
  /\ (forall c, last s = Some c -> is_space c = false).

(** The two kinds of section: the seed, and a section opened by a heading
    line. *)
Definition well_formed (h : Heading) : Prop :=
  match level h with
  | title => text h = py "Introduction" /\ page h = 0%nat
  | H1 => text h <> [] /\ text h <> py "Introduction" /\ trimmed (text h)
  end.

(** The state in which the scan starts. *)
Definition initial_state : SegState :=
  {| sections := []; current_heading := seed_heading |}.

(** Every [get_text] call of the segmentation loop succeeds. *)
Definition pages_readable (doc : list Page) : Prop :=
  Forall (fun pg => exists blocks, get_text_dict_no_ligatures pg = Ok blocks) doc.

(** No line of the document has text. *)
Definition no_line_text (doc : list Page) : Prop :=
  Forall (fun pg => exists blocks,
            get_text_dict_no_ligatures pg = Ok blocks
            /\ Forall (fun b => forall ls, lines b = Some ls ->
                                 Forall (fun ln => line_text_of ln = []) ls) blocks)
         doc.

(** A document of two pages of images, without any text. *)
Definition image_page : Page :=
  {| get_text_dict := Ok [ {| lines := None |} ];
     get_text_dict_no_ligatures := Ok [ {| lines := None |} ] |}.

Definition image_doc : list Page := [image_page; image_page].

(** A run on two files, the second of which breaks while it is parsed, with
    an embedding service that scores every section 0.5. *)
Definition guide_docs : list (str * PdfFile) :=
  [(py "guide.pdf", Ok sound_doc); (py "broken.pdf", Ok half_broken_doc)].

Definition guide_report : Report :=
  analyze (fun _ _ => 0.5%float) (py "2025-07-28T10:00:00.123456Z") guide_docs
    (py "Travel Planner") (py "Plan a trip") None.

(** * Properties *)

(** ** The result monad *)

Lemma bind_Ok_inv {A B} (m : result A) (k : A -> result B) (b : B) :
  (x ← m; k x) = Ok b -> exists a, m = Ok a /\ k a = Ok b.
Proof. destruct m as [a|e]; simpl; [eauto | discriminate]. Qed.

Lemma bind_Raise {A B} (m : result A) (k : A -> result B) (e : exn) :
  m = Raise e -> (x ← m; k x) = Raise e.
Proof. intros ->. reflexivity. Qed.

(** An invariant of the loop body is an invariant of the loop. *)
Lemma for_each_invariant {A S} (P : S -> Prop) (body : S -> A -> result S) :
  (forall s a s', P s -> body s a = Ok s' -> P s') ->
  forall l s s', P s -> for_each body l s = Ok s' -> P s'.
Proof.
  intros Hbody l. induction l as [|a l IH]; intros s s' Hs Hrun; simpl in Hrun.
  - injection Hrun as <-. exact Hs.
  - apply bind_Ok_inv in Hrun as (s1 & Hstep & Hrest). eauto.
Qed.

(** ** Regular expressions: the matcher decides the language *)

Lemma nullable_lang r : nullable r = true <-> lang r [].
Proof.
  split.
  - induction r; simpl; intros H; try discriminate.
    + constructor.
    + apply andb_true_iff in H as [H1 H2].
      apply (lang_cat r1 r2 [] []); auto.
    + apply orb_true_iff in H as [H|H]; [apply lang_alt_l | apply lang_alt_r]; auto.
    + constructor.
  - intros H. remember [] as s eqn:Es.
    induction H; simpl; subst; try discriminate; auto.
    + apply app_eq_nil in Es as [-> ->]. rewrite IHlang1, IHlang2; auto.
    + rewrite IHlang; auto.
    + rewrite IHlang, orb_true_r; auto.
Qed.

Lemma deriv_sound c r s : lang (deriv c r) s -> lang r (c :: s).
Proof.
  revert s. induction r; simpl; intros s H.
  - inversion H.
  - inversion H.
  - destruct (p c) eqn:Hp; inversion H; subst. constructor; exact Hp.
  - destruct (nullable r1) eqn:Hn.
    + inversion H as [| |? ? s1 s2 H1 H2| ? ? ? H1 | ? ? ? H1 | |]; subst.
      * inversion H1 as [| |? ? s1 s2 Ha Hb| | | |]; subst.
        change (c :: s1 ++ s2) with ((c :: s1) ++ s2). constructor; auto.
      * change (c :: s) with ([] ++ c :: s). constructor; auto.
        apply nullable_lang; exact Hn.
    + inversion H as [| |? ? s1 s2 H1 H2| | | |]; subst.
      change (c :: s1 ++ s2) with ((c :: s1) ++ s2). constructor; auto.
  - inversion H; subst; [apply lang_alt_l | apply lang_alt_r]; auto.
  - inversion H as [| |? ? s1 s2 H1 H2| | | |]; subst.
    change (c :: s1 ++ s2) with ((c :: s1) ++ s2). constructor; auto.
Qed.

Lemma deriv_complete c r s : lang r (c :: s) -> lang (deriv c r) s.
Proof.
  intros H. remember (c :: s) as cs eqn:Ecs. revert c s Ecs.
  induction H as [|p a Hp|r1 r2 s1 s2 H1 IH1 H2 IH2|r1 r2 s1 H1 IH1|r1 r2 s1 H1 IH1
                 |r1|r1 s1 s2 H1 IH1 H2 IH2];
    intros c0 s0 Ecs; simpl; try discriminate.
  - injection Ecs as -> <-. rewrite Hp. constructor.
  - destruct s1 as [|a s1]; simpl in Ecs.
    + assert (Hn : nullable r1 = true) by (apply nullable_lang; exact H1).
      rewrite Hn. apply lang_alt_r. apply IH2. exact Ecs.
    + injection Ecs as -> <-.
      destruct (nullable r1); [apply lang_alt_l|]; constructor;
        solve [apply IH1; reflexivity | assumption].
  - apply lang_alt_l. apply IH1. exact Ecs.
  - apply lang_alt_r. apply IH1. exact Ecs.
  - destruct s1 as [|a s1]; simpl in Ecs.
    + apply IH2 in Ecs. exact Ecs.
    + injection Ecs as -> <-. constructor; [apply IH1; reflexivity | assumption].
Qed.

(** [re.match] succeeds exactly when a prefix of the text is in the language
    of the pattern. *)
Lemma re_match_correct r s :
  re_match r s = true <-> exists p q, s = p ++ q /\ lang r p.
Proof.
  revert r. induction s as [|c s IH]; intros r; simpl.
  - rewrite orb_false_r, nullable_lang. split.
    + intros H. exists [], []. auto.
    + intros (p & q & E & H). symmetry in E. apply app_eq_nil in E as [-> _]. exact H.
  - rewrite orb_true_iff, nullable_lang, IH. split.
    + intros [H | (p & q & -> & H)].
      * exists [], (c :: s). auto.
      * exists (c :: p), q. split; [reflexivity | apply deriv_sound; exact H].
    + intros (p & q & E & H). destruct p as [|a p]; [left; exact H|].
      simpl in E. injection E as <- ->. right. exists p, q.
      split; [reflexivity | apply deriv_complete; exact H].
Qed.

(** ** C4: the heading test *)

Lemma _is_heading_pattern_correct text :
  _is_heading_pattern text = true <-> starts_with_marker text.
Proof.
  unfold _is_heading_pattern, starts_with_marker.
  assert (Hex : existsb (fun pattern => re_match pattern text)
                  [decimal_outline; roman_marker; letter_marker] = true <->
                exists prefix rest, text = prefix ++ rest /\
                  (lang decimal_outline prefix \/ lang roman_marker prefix \/
                   lang letter_marker prefix)).
  { simpl. rewrite orb_false_r, !orb_true_iff, !re_match_correct. split.
    - intros [(p & q & E & H) | [(p & q & E & H) | (p & q & E & H)]];
        exists p, q; auto.
    - intros (p & q & E & [H | [H | H]]); [left | right; left | right; right];
        exists p, q; auto. }
  destruct text as [|c text]; [|exact Hex].
  split; [discriminate|].
  intros H. apply Hex in H. simpl in H. discriminate.
Qed.

Lemma lang_class_inv p s : lang (Class p) s -> exists c, s = [c] /\ p c = true.
Proof. inversion 1; subst; eauto. Qed.

Lemma lang_plus_class_inv p s :
  lang (Plus (Class p)) s -> exists c s', s = c :: s' /\ p c = true.
Proof.
  unfold Plus. inversion 1 as [| |? ? s1 s2 H1 H2| | | |]; subst.
  apply lang_class_inv in H1 as (c & -> & Hc). simpl. eauto.
Qed.

(** A single-letter marker is a letter, then [.] or [)], then whitespace. *)
Lemma letter_marker_shape text :
  re_match letter_marker text = true <->
  exists c sep w rest, text = c :: sep :: w :: rest /\
    is_letter c = true /\ is_marker_sep sep = true /\ is_space w = true.
Proof.
  split.
  - intros H. apply re_match_correct in H as (p & q & -> & H).
    unfold letter_marker in H.
    inversion H as [| |? ? s1 s2 H1 H2| | | |]; subst.
    inversion H2 as [| |? ? s3 s4 H3 H4| | | |]; subst.
    apply lang_class_inv in H1 as (c & -> & Hc).
    apply lang_class_inv in H3 as (sep & -> & Hsep).
    apply lang_plus_class_inv in H4 as (w & s' & -> & Hw).
    exists c, sep, w, (s' ++ q). simpl. auto.
  - intros (c & sep & w & rest & -> & Hc & Hs & Hw).
    apply re_match_correct. exists [c; sep; w], rest. split; [reflexivity|].
    apply (lang_cat _ _ [c] [sep; w]); [constructor; exact Hc|].
    apply (lang_cat _ _ [sep] [w]); [constructor; exact Hs|].
    apply (lang_cat _ _ [w] []); constructor; exact Hw.
Qed.

(** C4. The heading test of a line is true exactly when one of the four
    signals holds: the font is larger than 1.1 times the average; the line is
    bold and its font larger than 0.9 times the average; the text starts with
    a decimal-outline, roman-numeral or single-letter marker; or the line is
    bold and shorter than 100 characters. The test is a function of
    [font_size], [is_bold], [line_text] and [avg_font_size] alone. *)
Theorem is_heading_four_signals (font_size : float) (is_bold : bool)
    (line_text : str) (avg_font_size : float) :
  is_heading font_size is_bold line_text avg_font_size = true <->
    PrimFloat.ltb (avg_font_size * 1.1)%float font_size = true
    \/ (is_bold = true /\ PrimFloat.ltb (avg_font_size * 0.9)%float font_size = true)
    \/ starts_with_marker line_text
    \/ (is_bold = true /\ (length line_text < 100)%nat).
Proof.
  unfold is_heading.
  rewrite !orb_true_iff, !andb_true_iff, _is_heading_pattern_correct, Nat.ltb_lt.
  tauto.
Qed.

(** ** C1: the keyword boost *)

Lemma add_boost_iter n rel : add_boost (Nat.iter n add_boost rel) = Nat.iter n add_boost (add_boost rel).
Proof. induction n as [|n IH]; simpl; [reflexivity | rewrite IH; reflexivity]. Qed.

(** A loop that adds the boost at each element passing [test] adds it as many
    times as there are such elements. *)
Lemma boost_loop_counts (test : str -> bool) (keywords : list str) (rel : float) :
  fold_left (fun rel keyword => if test keyword then (rel + 0.1)%float else rel)
    keywords rel
  = Nat.iter (length (List.filter test keywords)) add_boost rel.
Proof.
  revert rel. induction keywords as [|k keywords IH]; intros rel; simpl.
  - reflexivity.
  - rewrite IH. destruct (test k); simpl; [|reflexivity].
    rewrite add_boost_iter. reflexivity.
Qed.

Lemma boosted_relevance_iter (cosine_score : float) (h : Heading) :
  boosted_relevance cosine_score h = Nat.iter (boost_count h) add_boost cosine_score.
Proof. unfold boosted_relevance, boost_count. apply boost_loop_counts. Qed.

Lemma boost_count_le (h : Heading) : (boost_count h <= 20)%nat.
Proof.
  unfold boost_count.
  etransitivity; [apply List.filter_length_le|].
  vm_compute. reflexivity.
Qed.

(** C1, as the code has it. The relevance of a section is its cosine score
    with 0.1 added once for each of the 20 boost keywords that occurs in the
    lower-cased title or content: the boost is cumulative, one addition per
    matching keyword, and a section that matches no keyword keeps its cosine
    score. *)
Theorem boost_is_cumulative (cos_sim : str -> str -> float) (query : str)
    (dh : str * Heading) :
  let base := cos_sim query (combined_text (snd dh)) in
  relevance (score_section cos_sim query dh)
    = Nat.iter (boost_count (snd dh)) add_boost base
  /\ (boost_count (snd dh) <= 20)%nat
  /\ (boost_count (snd dh) = 0%nat -> relevance (score_section cos_sim query dh) = base)
  /\ (boost_count (snd dh) = 1%nat ->
        relevance (score_section cos_sim query dh) = (base + 0.1)%float).
Proof.
  intros base.
  assert (E : relevance (score_section cos_sim query dh)
              = Nat.iter (boost_count (snd dh)) add_boost base)
    by apply boosted_relevance_iter.
  split; [exact E|]. split; [apply boost_count_le|].
  split; intros Hn; rewrite E, Hn; reflexivity.
Qed.

(** C1 fails as stated: with a cosine score of 0.5, the section headed
    "Beach Bars" matches two keywords, gets the boost twice and ends more than
    0.1 above its cosine score. *)
Lemma boost_applied_twice :
  let scored := score_section (fun _ _ => 0.5%float) (py "query") (py "guide.pdf", beach_bars) in
  boost_count beach_bars = 2%nat
  /\ relevance scored = (0.5 + 0.1 + 0.1)%float
  /\ PrimFloat.ltb 0.1%float (relevance scored - 0.5)%float = true.
Proof. vm_compute. repeat split; reflexivity. Qed.

(** ** C2 and C3: the diverse selection *)

Lemma section_in_app s l1 l2 :
  section_in s (l1 ++ l2) = (section_in s l1 || section_in s l2)%bool.
Proof. apply existsb_app. Qed.

Lemma pass1_step_selected (max_sections : Z) (st : SelectionState) (a : Section) :
  selected (pass1_step max_sections st a) = selected st
  \/ selected (pass1_step max_sections st a) = selected st ++ [a].
Proof. unfold pass1_step. destruct (_ && _)%bool; simpl; auto. Qed.

(** The first loop only appends, and what it appends is in ranked order. *)
Lemma pass1_extends (max_sections : Z) (l : list Section) (st : SelectionState) :
  exists added,
    selected (fold_left (pass1_step max_sections) l st) = selected st ++ added
    /\ added `sublist_of` l.
Proof.
  revert st. induction l as [|a l IH]; intros st; simpl.
  - exists []. rewrite app_nil_r. split; [reflexivity | constructor].
  - destruct (IH (pass1_step max_sections st a)) as (added & E & Hsub).
    destruct (pass1_step_selected max_sections st a) as [H|H]; rewrite H in E.
    + exists added. split; [exact E | constructor; exact Hsub].
    + exists (a :: added). rewrite E, <- app_assoc. split; [reflexivity|].
      constructor; exact Hsub.
Qed.

(** So does the second loop, and it appends no section that compares equal
    to one already selected. *)
Lemma pass2_extends (max_sections : Z) (l : list Section) (sel : list Section) :
  exists fill,
    pass2 l max_sections sel = sel ++ fill
    /\ fill `sublist_of` l
    /\ Forall (fun s => section_in s sel = false) fill.
Proof.
  revert sel. induction l as [|a l IH]; intros sel; simpl.
  - exists []. rewrite app_nil_r. repeat split; constructor.
  - destruct (Z.leb _ _).
    + exists []. rewrite app_nil_r. repeat split; [apply sublist_nil_l | constructor].
    + destruct (section_in a sel) eqn:Hin.
      * destruct (IH sel) as (fill & E & Hsub & Hnew).
        exists fill. repeat split; [exact E | constructor; exact Hsub | exact Hnew].
      * destruct (IH (sel ++ [a])) as (fill & E & Hsub & Hnew).
        exists (a :: fill). rewrite E, <- app_assoc. repeat split.
        -- constructor; exact Hsub.
        -- constructor; [exact Hin|].
           eapply Forall_impl; [exact Hnew|]. intros s Hs. simpl in Hs.
           rewrite section_in_app in Hs. apply orb_false_iff in Hs as [Hs _]. exact Hs.
Qed.

(** Neither loop lets the selection grow beyond [max_sections]. *)
Lemma pass1_step_within m st a :
  within m (selected st) -> within m (selected (pass1_step m st a)).
Proof.
  unfold within, pass1_step. intros H.
  destruct (Nat.ltb _ _); simpl; [|exact H].
  destruct (Z.ltb_spec (Z.of_nat (length (selected st))) m); simpl; [|exact H].
  rewrite length_app. simpl. lia.
Qed.

Lemma pass1_within m l st :
  within m (selected st) -> within m (selected (fold_left (pass1_step m) l st)).
Proof.
  revert st. induction l as [|a l IH]; intros st H; simpl; [exact H|].
  apply IH, pass1_step_within, H.
Qed.

Lemma pass2_within m l sel : within m sel -> within m (pass2 l m sel).
Proof.
  revert sel. induction l as [|a l IH]; intros sel H; simpl; [exact H|].
  destruct (Z.leb_spec m (Z.of_nat (length sel))); [exact H|].
  destruct (section_in a sel); [apply IH, H|].
  apply IH. unfold within in *. rewrite length_app. simpl. lia.
Qed.

(** On a selection within the bound the final slice changes nothing. *)
Lemma slice_to_within m sel : within m sel -> slice_to sel m = sel.
Proof.
  unfold within, slice_to. intros H.
  destruct (Z.leb_spec 0 m).
  - apply take_ge. lia.
  - destruct sel; [reflexivity | simpl in H; lia].
Qed.

Lemma select_unfold ranked m :
  _select_diverse_sections ranked m
  = pass2 ranked m (selected (pass1 ranked m)).
Proof.
  unfold _select_diverse_sections. apply slice_to_within, pass2_within.
  unfold pass1. apply pass1_within. unfold within. simpl. lia.
Qed.

(** Order is kept along a sublist. *)
Lemma precedes_sublist {A} (x y : A) (l1 l2 : list A) :
  l1 `sublist_of` l2 -> precedes x y l1 -> precedes x y l2.
Proof.
  induction 1 as [|a l1 l2 Hsub IH|a l1 l2 Hsub IH]; intros (i & j & Hlt & Hi & Hj).
  - destruct i; discriminate.
  - destruct j as [|j]; [lia|]. destruct i as [|i]; simpl in *.
    + assert (Hy : exists k, l2 !! k = Some y).
      { apply list_elem_of_lookup. apply (sublist_subseteq _ _ Hsub).
        apply list_elem_of_lookup. eauto. }
      destruct Hy as (k & Hk). exists 0%nat, (S k). repeat split; [lia | exact Hi | exact Hk].
    + destruct IH as (i' & j' & Hlt' & Hi' & Hj'); [exists i, j; repeat split; [lia|auto..]|].
      exists (S i'), (S j'). repeat split; [lia | exact Hi' | exact Hj'].
  - destruct IH as (i' & j' & Hlt' & Hi' & Hj'); [exists i, j; auto|].
    exists (S i'), (S j'). repeat split; [lia | exact Hi' | exact Hj'].
Qed.

(** C2, as the code has it. The output is what pass 1 admitted followed by
    what pass 2 filled in; each of the two parts is an order-preserving
    subsequence of the ranked input, so two sections admitted in the same pass
    stand in ranked order, and no filled-in section compares equal to one
    admitted in pass 1. *)
Theorem selection_is_two_ordered_passes (ranked_sections : list Section)
    (max_sections : Z) :
  let admitted := selected (pass1 ranked_sections max_sections) in
  exists fill,
    _select_diverse_sections ranked_sections max_sections = admitted ++ fill
    /\ admitted `sublist_of` ranked_sections
    /\ fill `sublist_of` ranked_sections
    /\ Forall (fun s => section_in s admitted = false) fill
    /\ (forall s t, precedes s t admitted -> precedes s t ranked_sections)
    /\ (forall s t, precedes s t fill -> precedes s t ranked_sections).
Proof.
  intros admitted.
  destruct (pass2_extends max_sections ranked_sections admitted) as (fill & E & Hfill & Hnew).
  destruct (pass1_extends max_sections ranked_sections {| selected := []; doc_count := ∅ |})
    as (added & Eadd & Hadd).
  simpl in Eadd. fold (pass1 ranked_sections max_sections) in Eadd.
  fold admitted in Eadd. subst added.
  exists fill. rewrite select_unfold. fold admitted.
  repeat split; auto; intros s t; apply precedes_sublist; assumption.
Qed.

Lemma precedes_fmap {A B} (f : A -> B) (x y : A) (l : list A) :
  precedes x y l -> precedes (f x) (f y) (f <$> l).
Proof.
  intros (i & j & Hlt & Hi & Hj). exists i, j.
  rewrite !list_lookup_fmap, Hi, Hj. auto.
Qed.

Lemma scenario_keys_order : ~ precedes 11%nat 3%nat [1; 2; 3; 4; 11; 12; 13]%nat.
Proof.
  intros (i & j & Hlt & Hi & Hj).
  destruct i as [|[|[|[|[|[|[|i]]]]]]]; simpl in Hi; try discriminate Hi.
  destruct j as [|[|[|[|[|[|[|j]]]]]]]; simpl in Hj; try discriminate Hj; lia.
Qed.

(** C2 fails as stated. On the scenario list, which is in descending order of
    relevance, the output is [a1; a2; b1; b2; a3]: [b1] precedes [a3] in the
    output, while [a3] precedes [b1], and not the other way round, in the
    ranked input. The output is not a subsequence of the input. *)
Lemma selection_breaks_ranked_order :
  sorted_by_relevance_desc scenario_ranked = true
  /\ _select_diverse_sections scenario_ranked 5 = [a1; a2; b1; b2; a3]
  /\ precedes b1 a3 (_select_diverse_sections scenario_ranked 5)
  /\ precedes a3 b1 scenario_ranked
  /\ ~ precedes b1 a3 scenario_ranked
  /\ ~ _select_diverse_sections scenario_ranked 5 `sublist_of` scenario_ranked.
Proof.
  assert (Hout : _select_diverse_sections scenario_ranked 5 = [a1; a2; b1; b2; a3])
    by (vm_compute; reflexivity).
  assert (Hpre : precedes b1 a3 (_select_diverse_sections scenario_ranked 5)).
  { rewrite Hout. exists 2%nat, 4%nat. split; [lia|]. split; reflexivity. }
  assert (Hnot : ~ precedes b1 a3 scenario_ranked).
  { intros H.
    (* each section of the scenario has its own key *)
    pose (key := fun s : Section =>
                   (page (parsed s)
                    + if str_eqb (document s) (py "b.pdf") then 10 else 0)%nat).
    apply (precedes_fmap key) in H.
    replace (key <$> scenario_ranked) with [1; 2; 3; 4; 11; 12; 13]%nat in H
      by (vm_compute; reflexivity).
    replace (key b1) with 11%nat in H by (vm_compute; reflexivity).
    replace (key a3) with 3%nat in H by (vm_compute; reflexivity).
    exact (scenario_keys_order H). }
  split; [vm_compute; reflexivity|].
  split; [exact Hout|]. split; [exact Hpre|].
  split; [exists 2%nat, 4%nat; split; [lia|]; split; reflexivity|].
  split; [exact Hnot|].
  intros Hsub. apply Hnot. eapply precedes_sublist; [exact Hsub | exact Hpre].
Qed.

Lemma count_doc_app d l1 l2 :
  count_doc d (l1 ++ l2) = (count_doc d l1 + count_doc d l2)%nat.
Proof. unfold count_doc. rewrite List.filter_app, length_app. reflexivity. Qed.

Lemma get_count_insert (m : gmap str nat) (k d : str) (n : nat) :
  get_count (<[k := n]> m) d = if decide (k = d) then n else get_count m d.
Proof.
  unfold get_count. destruct (decide (k = d)) as [->|Hne].
  - rewrite lookup_insert_eq. reflexivity.
  - rewrite lookup_insert_ne by exact Hne. reflexivity.
Qed.

Lemma pass1_step_invariant m st a :
  pass1_invariant st -> pass1_invariant (pass1_step m st a).
Proof.
  intros Hinv. unfold pass1_step.
  destruct (Nat.ltb_spec (get_count (doc_count st) (document a)) 2) as [Hlt|]; simpl;
    [|exact Hinv].
  destruct (Z.ltb _ _); simpl; [|exact Hinv].
  intros d. simpl. rewrite get_count_insert, count_doc_app.
  destruct (Hinv d) as [Hd Hcap]. destruct (Hinv (document a)) as [Ha _].
  unfold count_doc at 2 4. simpl. unfold str_eqb.
  destruct (decide (document a = d)) as [E|Hne].
  - rewrite bool_decide_eq_true_2 by exact E. simpl. subst d. lia.
  - rewrite bool_decide_eq_false_2 by exact Hne. simpl. lia.
Qed.

Lemma pass1_invariant_holds ranked m : pass1_invariant (pass1 ranked m).
Proof.
  unfold pass1.
  assert (H0 : pass1_invariant {| selected := []; doc_count := ∅ |}).
  { intros d. unfold get_count, count_doc. simpl. rewrite lookup_empty. simpl. lia. }
  revert H0. generalize {| selected := []; doc_count := ∅ |}.
  induction ranked as [|a l IH]; intros st H; simpl; [exact H|].
  apply IH, pass1_step_invariant, H.
Qed.

(** C3. The selector returns at most [max_sections] sections (none when
    [max_sections] is negative), and at every point of pass 1, that is after
    every prefix of the ranked list, each document has at most 2 of its
    sections admitted, which is what [doc_count] records for it. *)
Theorem selection_is_bounded (ranked_sections : list Section) (max_sections : Z) :
  (0 <= max_sections ->
     Z.of_nat (length (_select_diverse_sections ranked_sections max_sections))
       <= max_sections)
  /\ (max_sections < 0 ->
        _select_diverse_sections ranked_sections max_sections = [])
  /\ (forall done rest doc_name,
        ranked_sections = done ++ rest ->
        let st := pass1 done max_sections in
        pass1 ranked_sections max_sections
          = fold_left (pass1_step max_sections) rest st
        /\ (count_doc doc_name (selected st) <= 2)%nat
        /\ get_count (doc_count st) doc_name = count_doc doc_name (selected st)).
Proof.
  assert (Hin : within max_sections
                  (_select_diverse_sections ranked_sections max_sections)).
  { rewrite select_unfold. apply pass2_within. unfold pass1. apply pass1_within.
    unfold within. simpl. lia. }
  unfold within in Hin. split; [|split].
  - intros Hm. lia.
  - intros Hm. destruct (_select_diverse_sections _ _); [reflexivity|]. simpl in Hin. lia.
  - intros done rest d -> st. split.
    + unfold pass1. apply fold_left_app.
    + destruct (pass1_invariant_holds done max_sections d) as [Hd Hcap]. auto.
Qed.

(** ** C5: the excerpt refiner *)

Lemma rfind_spec (c : ascii) (s : str) :
  (rfind c s = -1 /\ forall j, s !! j <> Some c)
  \/ (exists i : nat, rfind c s = Z.of_nat i /\ s !! i = Some c
                    /\ forall j, (i < j)%nat -> s !! j <> Some c).
Proof.
  induction s as [|x s IH]; simpl.
  - left. split; [reflexivity | intros j; destruct j; discriminate].
  - destruct IH as [[E Hno] | (i & E & Hat & Hafter)]; rewrite E.
    + simpl. destruct (Ascii.eqb_spec x c) as [->|Hne].
      * right. exists 0%nat. repeat split.
        intros [|j] Hj; [lia | apply Hno].
      * left. split; [reflexivity|].
        intros [|j]; simpl; [congruence | apply Hno].
    + right. exists (S i).
      destruct (Z.leb_spec 0 (Z.of_nat i)); [|lia].
      repeat split; [lia | exact Hat |].
      intros [|j] Hj; [lia|]. simpl. apply Hafter. lia.
Qed.

Lemma rfind_ge (c : ascii) (s : str) : -1 <= rfind c s.
Proof. destruct (rfind_spec c s) as [[E _] | (i & E & _)]; lia. Qed.

Lemma rfind_at (c : ascii) (s : str) (i : nat) :
  rfind c s = Z.of_nat i -> s !! i = Some c.
Proof.
  intros E. destruct (rfind_spec c s) as [[E' _] | (i' & E' & Hat & _)]; [lia|].
  replace i with i' by lia. exact Hat.
Qed.

Lemma rfind_none_after (c : ascii) (s : str) (j : nat) :
  rfind c s < Z.of_nat j -> s !! j <> Some c.
Proof.
  intros Hlt. destruct (rfind_spec c s) as [[_ Hno] | (i & E & _ & Hafter)].
  - apply Hno.
  - apply Hafter. lia.
Qed.

(** The maximum of the three [rfind] results is the position of the last
    sentence-terminal mark, or -1 when there is none. *)
Lemma last_sentence_end_spec (w : str) :
  let m := Z.max (Z.max (rfind "."%char w) (rfind "!"%char w)) (rfind "?"%char w) in
  (m = -1 /\ no_sentence_end w)
  \/ (exists i : nat, m = Z.of_nat i /\ last_sentence_end_at w i).
Proof.
  intros m.
  pose proof (rfind_ge "."%char w). pose proof (rfind_ge "!"%char w).
  pose proof (rfind_ge "?"%char w).
  assert (Hafter : forall j c, m < Z.of_nat j -> w !! j = Some c -> ~ is_sentence_end c).
  { intros j c Hj Hc [-> | [-> | ->]]; revert Hc; apply rfind_none_after; lia. }
  destruct (Z.ltb_spec m 0) as [Hneg|Hpos].
  - left. split; [lia|]. intros j c. apply Hafter. lia.
  - right. exists (Z.to_nat m). split; [lia|]. split.
    + assert (Hm : m = rfind "."%char w \/ m = rfind "!"%char w \/ m = rfind "?"%char w)
        by lia.
      destruct Hm as [Hm | [Hm | Hm]];
        [exists "."%char | exists "!"%char | exists "?"%char];
        (split; [apply rfind_at; lia | unfold is_sentence_end; auto]).
    + intros j c Hj. apply Hafter. lia.
Qed.


(** Whitespace normalisation: [re.sub] then [strip]. *)

Lemma collapse_chars (in_run : bool) (s : str) (c : ascii) :
  c ∈ collapse_from in_run s -> is_space c = true -> c = " "%char.
Proof.
  revert in_run. induction s as [|x s IH]; intros in_run; simpl.
  - intros H. inversion H.
  - destruct (is_space x) eqn:Hx.
    + destruct in_run; [apply IH|].
      intros [->|H]%elem_of_cons; [reflexivity | eapply IH; exact H].
    + intros [->|H]%elem_of_cons Hc; [congruence | eapply IH; eauto].
Qed.

Lemma collapse_spacing (in_run : bool) (s : str) :
  (in_run = true -> collapse_from in_run s !! 0%nat <> Some " "%char)
  /\ (forall i, collapse_from in_run s !! i = Some " "%char ->
                collapse_from in_run s !! S i <> Some " "%char).
Proof.
  revert in_run. induction s as [|x s IH]; intros in_run; simpl.
  - split; intros; discriminate.
  - destruct (is_space x) eqn:Hx.
    + destruct (IH true) as [IH0 IHi]. destruct in_run.
      * split; [intros _; apply IH0; reflexivity | exact IHi].
      * split; [discriminate|].
        intros [|i]; simpl; [intros _; apply IH0; reflexivity | apply IHi].
    + destruct (IH false) as [_ IHi]. split.
      * intros _. simpl. intros [= ->]. discriminate Hx.
      * intros [|i]; simpl; [intros [= ->]; discriminate Hx | apply IHi].
Qed.

Lemma collapse_keeps_text (in_run : bool) (s : str) :
  List.filter not_space (collapse_from in_run s) = List.filter not_space s.
Proof.
  revert in_run. induction s as [|x s IH]; intros in_run; simpl; [reflexivity|].
  unfold not_space at 2. destruct (is_space x) eqn:Hx; simpl.
  - destruct in_run; simpl; apply IH.
  - unfold not_space at 1. rewrite Hx. simpl. f_equal. apply IH.
Qed.

Lemma lstrip_split (s : str) :
  exists p, s = p ++ lstrip s /\ List.filter not_space p = [].
Proof.
  induction s as [|x s (p & E & Hp)]; simpl.
  - exists []. auto.
  - destruct (is_space x) eqn:Hx.
    + exists (x :: p). simpl. unfold not_space at 1. rewrite Hx. simpl.
      split; [congruence | exact Hp].
    + exists []. auto.
Qed.

Lemma lstrip_head (s : str) (c : ascii) :
  head (lstrip s) = Some c -> is_space c = false.
Proof.
  induction s as [|x s IH]; simpl; [discriminate|].
  destruct (is_space x) eqn:Hx; [exact IH|].
  simpl. intros [= <-]. exact Hx.
Qed.

Lemma reverse_rev {A} (l : list A) : reverse l = rev l.
Proof. unfold reverse. symmetry. apply rev_alt. Qed.

Lemma rstrip_split (s : str) :
  exists q, s = rstrip s ++ q /\ List.filter not_space q = [].
Proof.
  unfold rstrip. destruct (lstrip_split (reverse s)) as (p & E & Hp).
  exists (reverse p). split.
  - rewrite <- reverse_app, <- E, reverse_involutive. reflexivity.
  - rewrite reverse_rev, List.filter_rev, Hp. reflexivity.
Qed.

Lemma rstrip_last (s : str) (c : ascii) :
  last (rstrip s) = Some c -> is_space c = false.
Proof. unfold rstrip. rewrite last_reverse. apply lstrip_head. Qed.

(** The stripped text is a middle part of the text, between whitespace. *)
Lemma strip_split (s : str) :
  exists p q, s = p ++ strip s ++ q
    /\ List.filter not_space p = [] /\ List.filter not_space q = [].
Proof.
  destruct (lstrip_split s) as (p & E & Hp).
  destruct (rstrip_split (lstrip s)) as (q & E' & Hq).
  exists p, q. unfold strip. rewrite <- E', <- E. auto.
Qed.

Lemma strip_keeps_text (s : str) :
  List.filter not_space (strip s) = List.filter not_space s.
Proof.
  destruct (strip_split s) as (p & q & E & Hp & Hq).
  rewrite E at 2. rewrite !List.filter_app, Hp, Hq, app_nil_r. reflexivity.
Qed.

Lemma normalize_normalized (s : str) : normalized (strip (collapse_whitespace s)).
Proof.
  set (t := collapse_whitespace s).
  destruct (strip_split t) as (p & q & E & _ & _).
  assert (Hlook : forall i x, strip t !! i = Some x -> t !! (length p + i)%nat = Some x).
  { intros i x Hi. rewrite E, lookup_app_r by lia.
    replace (length p + i - length p)%nat with i by lia.
    apply lookup_app_l_Some. exact Hi. }
  repeat split.
  - intros c Hc. apply (collapse_chars false s).
    fold (collapse_whitespace s). fold t. rewrite E.
    apply elem_of_app. right. apply elem_of_app. left. exact Hc.
  - intros i Hi Hnext. apply Hlook in Hi, Hnext.
    destruct (collapse_spacing false s) as [_ Hsp].
    apply (Hsp _ Hi). replace (S (length p + i)) with (length p + S i)%nat by lia.
    exact Hnext.
  - intros c Hc. unfold strip in Hc.
    destruct (rstrip_split (lstrip t)) as (q' & E' & _).
    apply (lstrip_head t). rewrite E'. apply head_app_Some. left. exact Hc.
  - intros c. unfold strip. apply rstrip_last.
Qed.



(** ** C6: no emitted section is blank *)

Lemma sorted_by_nil_inv {A} (key : A -> float) (l : list A) :
  sorted_by key l = [] -> l = [].
Proof.
  destruct l as [|x l]; [reflexivity|]. simpl.
  destruct (sorted_by key l) as [|y l']; simpl; [discriminate|].
  destruct (PrimFloat.ltb _ _); discriminate.
Qed.

(** A line with text has a first span: line 40 never raises. *)
Lemma line_text_first_span (ln : Line) :
  line_text_of ln <> [] -> exists first_span rest,
    sorted_by bbox_x0 (spans ln) = first_span :: rest.
Proof.
  unfold line_text_of. destruct (sorted_by bbox_x0 (spans ln)) as [|sp rest].
  - intros H. exfalso. apply H. reflexivity.
  - eauto.
Qed.

Lemma close_nonblank (secs : list Heading) (cur : Heading) :
  Forall nonblank secs ->
  Forall nonblank (match strip (content cur) with
                   | [] => secs
                   | _ => secs ++ [cur]
                   end).
Proof.
  intros H. destruct (strip (content cur)) eqn:E; [exact H|].
  apply Forall_app. split; [exact H|].
  constructor; [|constructor]. unfold nonblank. rewrite E. discriminate.
Qed.

Lemma process_line_nonblank avg page_num st ln st' :
  Forall nonblank (sections st) ->
  process_line avg page_num st ln = Ok st' ->
  Forall nonblank (sections st').
Proof.
  intros H. unfold process_line.
  destruct (line_text_of ln) as [|c lt]; [intros [= <-]; exact H|].
  destruct (sorted_by bbox_x0 (spans ln)) as [|sp rest]; [discriminate|].
  destruct (_ && _)%bool; intros [= <-]; simpl; [|exact H].
  apply close_nonblank, H.
Qed.

Lemma process_block_nonblank avg page_num st b st' :
  Forall nonblank (sections st) ->
  process_block avg page_num st b = Ok st' ->
  Forall nonblank (sections st').
Proof.
  unfold process_block. destruct (lines b) as [ls|]; [|intros H [= <-]; exact H].
  apply (for_each_invariant (fun st => Forall nonblank (sections st))).
  intros s a s'. apply process_line_nonblank.
Qed.

Lemma process_page_nonblank avg st numbered st' :
  Forall nonblank (sections st) ->
  process_page avg st numbered = Ok st' ->
  Forall nonblank (sections st').
Proof.
  unfold process_page. intros H Hrun.
  apply bind_Ok_inv in Hrun as (blocks & _ & Hrun). revert H Hrun.
  apply (for_each_invariant (fun st => Forall nonblank (sections st))).
  intros s a s'. apply process_block_nonblank.
Qed.

Lemma extract_structure_try_unfold (doc : list Page) (avg : float) :
  _calculate_average_font_size doc = Ok avg ->
  extract_structure_try (Ok doc)
  = (st ← for_each (process_page avg) (enumerate doc)
            {| sections := []; current_heading := seed_heading |};
     Ok (close_current st)).
Proof.
  intros Havg. unfold extract_structure_try. simpl. rewrite Havg. simpl.
  destruct (for_each _ _ _) as [st|e]; simpl; [|reflexivity].
  unfold close_current. destruct (strip _); reflexivity.
Qed.

Lemma extract_structure_nonblank (pdf : PdfFile) :
  Forall nonblank (extract_structure pdf).
Proof.
  unfold extract_structure.
  destruct (extract_structure_try pdf) as [secs|e] eqn:Hrun; [|constructor].
  unfold extract_structure_try in Hrun.
  apply bind_Ok_inv in Hrun as (doc & _ & Hrun).
  apply bind_Ok_inv in Hrun as (avg & _ & Hrun).
  apply bind_Ok_inv in Hrun as (st & Hscan & Hclose).
  assert (Hst : Forall nonblank (sections st)).
  { revert Hscan.
    apply (for_each_invariant (fun st => Forall nonblank (sections st))).
    - intros s a s'. apply process_page_nonblank.
    - constructor. }
  pose proof (close_nonblank (sections st) (current_heading st) Hst) as Hc.
  destruct (strip (content (current_heading st))); injection Hclose as <-; exact Hc.
Qed.

(** A line reading "Introduction" is body text whatever its font. *)
Lemma introduction_line_is_body avg page_num st ln :
  line_text_of ln = py "Introduction" ->
  process_line avg page_num st ln
  = Ok {| sections := sections st;
          current_heading :=
            {| level := level (current_heading st);
               text := text (current_heading st);
               page := page (current_heading st);
               content := content (current_heading st) ++ py "Introduction" ++ py " " |} |}.
Proof.
  intros Htext.
  destruct (line_text_first_span ln) as (sp & rest & Hsp);
    [rewrite Htext; discriminate|].
  unfold process_line. rewrite Htext, Hsp.
  change (py "Introduction") with ("I"%char :: py "ntroduction") at 1.
  cbv iota beta.
  replace (str_eqb (py "Introduction") (py "Introduction")) with true
    by (symmetry; apply bool_decide_eq_true_2; reflexivity).
  rewrite andb_false_r. reflexivity.
Qed.

(** What a line does to the list of closed sections: nothing, or it closes
    the current section, which then has a non-blank body. *)
Lemma process_line_sections avg page_num st ln st' :
  process_line avg page_num st ln = Ok st' ->
  sections st' = sections st
  \/ (sections st' = sections st ++ [current_heading st]
      /\ nonblank (current_heading st)).
Proof.
  unfold process_line.
  destruct (line_text_of ln) as [|c lt]; [intros [= <-]; auto|].
  destruct (sorted_by bbox_x0 (spans ln)) as [|sp rest]; [discriminate|].
  destruct (_ && _)%bool; intros [= <-]; simpl; [|auto].
  unfold nonblank. destruct (strip (content (current_heading st))); [auto|].
  right. split; [reflexivity | discriminate].
Qed.

(** C6. Every section that [extract_structure] returns has a body that is
    not blank. The scan starts from the seed section (level [title], heading
    "Introduction", page 0, empty body) with no closed section; a line whose
    text is "Introduction" never opens a section but is added to the current
    body; and a line appends the current section to the output only when it
    closes it with a non-blank body, as does the end of the scan. *)
Theorem emitted_sections_nonblank :
  (forall pdf : PdfFile,
     Forall (fun h => strip (content h) <> []) (extract_structure pdf))
  /\ seed_heading
     = {| level := title; text := py "Introduction"; page := 0%nat; content := [] |}
  /\ (forall (doc : list Page) (avg : float),
        _calculate_average_font_size doc = Ok avg ->
        extract_structure_try (Ok doc)
        = (st ← for_each (process_page avg) (enumerate doc)
                  {| sections := []; current_heading := seed_heading |};
           Ok (close_current st)))
  /\ (forall avg page_num st ln,
        line_text_of ln = py "Introduction" ->
        exists st', process_line avg page_num st ln = Ok st'
          /\ sections st' = sections st
          /\ text (current_heading st') = text (current_heading st)
          /\ page (current_heading st') = page (current_heading st)
          /\ content (current_heading st')
             = content (current_heading st) ++ py "Introduction" ++ py " ")
  /\ (forall avg page_num st ln st',
        process_line avg page_num st ln = Ok st' ->
        strip (content (current_heading st)) = [] ->
        sections st' = sections st)
  /\ (forall st,
        strip (content (current_heading st)) = [] ->
        close_current st = sections st).
Proof.
  split; [exact extract_structure_nonblank|].
  split; [reflexivity|].
  split; [exact extract_structure_try_unfold|].
  split; [|split].
  - intros avg page_num st ln Htext.
    eexists. split; [apply introduction_line_is_body; exact Htext|].
    simpl. auto.
  - intros avg page_num st ln st' Hrun Hblank.
    destruct (process_line_sections _ _ _ _ _ Hrun) as [E | [_ Hnb]]; [exact E|].
    destruct (Hnb Hblank).
  - intros st Hblank. unfold close_current. rewrite Hblank. reflexivity.
Qed.

(** ** C8: the average font size of a document without characters *)

Lemma sum_nat_zero (l : list nat) :
  Forall (fun n => n = 0%nat) l -> sum_nat l = 0%nat.
Proof.
  unfold sum_nat. generalize 0%nat at 2 3 as acc.
  induction l as [|n l IH]; intros acc H; simpl; [reflexivity|].
  inversion H as [|? ? Hn Hl]; subst. rewrite Nat.add_0_r. apply IH, Hl.
Qed.

Lemma average_font_size_unfold (doc : list Page) (sps : list Span) :
  collect_spans doc = Ok sps ->
  _calculate_average_font_size doc
  = match sps with
    | [] => Ok 12.0%float
    | _ =>
        let counts := map (fun sp => length (span_text sp)) sps in
        if Nat.eqb (sum_nat counts) 0 then Raise ZeroDivisionError
        else Ok (sum_float (map (fun sc => fst sc * float_of_nat (snd sc))%float
                              (combine (map size sps) counts))
                 / float_of_nat (sum_nat counts))%float
    end.
Proof.
  intros Hsp. unfold _calculate_average_font_size. rewrite Hsp.
  destruct sps; reflexivity.
Qed.

(** C8. Let [sps] be the spans that [_calculate_average_font_size] visits.
    With no span at all the result is the default 12.0. With at least one
    span, all of them with empty text, the division raises
    [ZeroDivisionError]; [extract_structure] catches it and returns no
    section. With at least one character the result is the weighted average,
    not the default. *)
Theorem average_font_size_zero_chars (doc : list Page) (sps : list Span) :
  collect_spans doc = Ok sps ->
  (sps = [] -> _calculate_average_font_size doc = Ok 12.0%float)
  /\ (sps <> [] -> Forall (fun sp => span_text sp = []) sps ->
        _calculate_average_font_size doc = Raise ZeroDivisionError
        /\ extract_structure_try (Ok doc) = Raise ZeroDivisionError
        /\ extract_structure (Ok doc) = [])
  /\ (sps <> [] ->
        let counts := map (fun sp => length (span_text sp)) sps in
        sum_nat counts <> 0%nat ->
        _calculate_average_font_size doc
        = Ok (sum_float (map (fun sc => fst sc * float_of_nat (snd sc))%float
                           (combine (map size sps) counts))
              / float_of_nat (sum_nat counts))%float).
Proof.
  intros Hsp. pose proof (average_font_size_unfold doc sps Hsp) as Havg.
  split; [intros ->; exact Havg|]. split.
  - intros Hne Hempty.
    assert (Hzero : sum_nat (map (fun sp => length (span_text sp)) sps) = 0%nat).
    { apply sum_nat_zero, Forall_map. eapply Forall_impl; [exact Hempty|].
      intros sp ->. reflexivity. }
    assert (Hraise : _calculate_average_font_size doc = Raise ZeroDivisionError).
    { rewrite Havg. destruct sps as [|sp sps']; [congruence|].
      cbv zeta. rewrite Hzero. reflexivity. }
    assert (Htry : extract_structure_try (Ok doc) = Raise ZeroDivisionError).
    { unfold extract_structure_try.
      change (Ok doc ≫= ?k) with (k doc). cbv beta.
      rewrite Hraise. reflexivity. }
    split; [exact Hraise|]. split; [exact Htry|].
    unfold extract_structure. rewrite Htry. reflexivity.
  - intros Hne counts Hpos. rewrite Havg.
    destruct sps as [|sp sps']; [congruence|].
    cbv zeta. fold counts.
    destruct (Nat.eqb_spec (sum_nat counts) 0); [contradiction | reflexivity].
Qed.

(** C8 at a document whose only span is empty. *)
Lemma average_font_size_zero_chars_witness :
  collect_spans empty_span_doc = Ok [empty_span]
  /\ _calculate_average_font_size empty_span_doc = Raise ZeroDivisionError
  /\ extract_structure (Ok empty_span_doc) = [].
Proof.
  split; [reflexivity|].
  destruct (average_font_size_zero_chars empty_span_doc [empty_span] eq_refl)
    as (_ & H & _).
  destruct H as (Havg & _ & Hout); [discriminate | repeat constructor|].
  split; [exact Havg | exact Hout].
Defined.

(** ** C7: a document that fails to parse *)

Lemma all_sections_app (docs1 docs2 : list (str * PdfFile)) :
  all_sections (docs1 ++ docs2) = all_sections docs1 ++ all_sections docs2.
Proof. unfold all_sections. rewrite map_app, concat_app. reflexivity. Qed.

Lemma all_sections_cons (d : str * PdfFile) (docs : list (str * PdfFile)) :
  all_sections (d :: docs)
  = map (fun h => (fst d, h)) (extract_structure (snd d)) ++ all_sections docs.
Proof. reflexivity. Qed.

(** The report depends on the documents through their names and their pooled
    sections only. *)
Lemma analyze_congr cos_sim now (docs docs' : list (str * PdfFile))
    (persona_role job_task : str) (challenge_info : option Json) :
  map fst docs = map fst docs' ->
  all_sections docs = all_sections docs' ->
  analyze cos_sim now docs persona_role job_task challenge_info
  = analyze cos_sim now docs' persona_role job_task challenge_info.
Proof.
  intros Hnames Hpool.
  unfold analyze, analyze_selection, ranked_sections.
  rewrite Hnames, Hpool. reflexivity.
Qed.

Lemma analyze_sections_congr cos_sim now (docs docs' : list (str * PdfFile))
    (persona_role job_task : str) (challenge_info : option Json) :
  all_sections docs = all_sections docs' ->
  extracted_sections (analyze cos_sim now docs persona_role job_task challenge_info)
  = extracted_sections (analyze cos_sim now docs' persona_role job_task challenge_info)
  /\ subsection_analysis (analyze cos_sim now docs persona_role job_task challenge_info)
     = subsection_analysis (analyze cos_sim now docs' persona_role job_task challenge_info).
Proof.
  intros Hpool.
  unfold analyze, analyze_selection, ranked_sections. simpl.
  rewrite Hpool. split; reflexivity.
Qed.

(** What [analyze_run] returns, by the pooled sections. *)
Lemma analyze_run_unfold cos_sim now (docs : list (str * PdfFile))
    (persona_role job_task : str) (challenge_info : option Json) :
  analyze_run cos_sim now docs persona_role job_task challenge_info
  = match all_sections docs with
    | [] => Raise RuntimeError
    | _ => Ok (analyze cos_sim now docs persona_role job_task challenge_info)
    end.
Proof. unfold analyze_run, cosine_scores. destruct (all_sections docs); reflexivity. Qed.

(** C7. When anything raises while a document is parsed, [extract_structure]
    returns no section for it, and the exception stops there. The pooled
    sections are those of the other documents. The run of [analyze] ends as it
    would have with a readable document without pages in its place, and it
    raises exactly when the run without the document raises (which is when no
    other document gives a section: line 114 then raises [RuntimeError],
    failed document or not). When the other documents give a section the run
    returns a report, and the two section lists of every report it returns
    are those of the run without the document. *)
Theorem failed_document_is_isolated (pdf : PdfFile) (e : exn) :
  extract_structure_try pdf = Raise e ->
  extract_structure pdf = []
  /\ forall cos_sim now (before after : list (str * PdfFile)) (name : str)
       (persona_role job_task : str) (challenge_info : option Json),
       let docs := before ++ (name, pdf) :: after in
       let run := analyze_run cos_sim now docs persona_role job_task challenge_info in
       let run_without :=
         analyze_run cos_sim now (before ++ after) persona_role job_task challenge_info in
       all_sections docs = all_sections (before ++ after)
       /\ run = analyze_run cos_sim now (before ++ (name, Ok []) :: after)
                  persona_role job_task challenge_info
       /\ (forall e', run = Raise e' <-> run_without = Raise e')
       /\ (all_sections (before ++ after) <> [] -> exists report, run = Ok report)
       /\ (forall report, run = Ok report ->
             exists without,
               run_without = Ok without
               /\ extracted_sections report = extracted_sections without
               /\ subsection_analysis report = subsection_analysis without).
Proof.
  intros Hfail.
  assert (Hnone : extract_structure pdf = [])
    by (unfold extract_structure; rewrite Hfail; reflexivity).
  split; [exact Hnone|].
  intros cos_sim now before after name persona_role job_task challenge_info
    docs run run_without.
  assert (Hpool : all_sections docs = all_sections (before ++ after)).
  { unfold docs. rewrite !all_sections_app, all_sections_cons. simpl.
    rewrite Hnone. reflexivity. }
  assert (Hpool' : all_sections (before ++ (name, Ok []) :: after)
                   = all_sections (before ++ after)).
  { rewrite !all_sections_app, all_sections_cons. reflexivity. }
  destruct (analyze_sections_congr cos_sim now docs (before ++ after)
              persona_role job_task challenge_info Hpool) as [He Hs].
  assert (Hrun : run = match all_sections (before ++ after) with
                       | [] => Raise RuntimeError
                       | _ => Ok (analyze cos_sim now docs persona_role job_task
                                    challenge_info)
                       end).
  { unfold run. rewrite analyze_run_unfold, Hpool. reflexivity. }
  assert (Hwithout : run_without
                     = match all_sections (before ++ after) with
                       | [] => Raise RuntimeError
                       | _ => Ok (analyze cos_sim now (before ++ after) persona_role
                                    job_task challenge_info)
                       end)
    by apply analyze_run_unfold.
  split; [exact Hpool|]. split; [|split; [|split]].
  - rewrite Hrun, analyze_run_unfold, Hpool'.
    destruct (all_sections (before ++ after)); [reflexivity|].
    f_equal. apply analyze_congr.
    + unfold docs. rewrite !map_app. reflexivity.
    + rewrite Hpool, Hpool'. reflexivity.
  - intros e'. rewrite Hrun, Hwithout.
    destruct (all_sections (before ++ after)); [reflexivity|].
    split; discriminate.
  - intros Hsome. rewrite Hrun.
    destruct (all_sections (before ++ after)); [congruence | eauto].
  - intros report. rewrite Hrun, Hwithout.
    destruct (all_sections (before ++ after)); [discriminate|].
    intros [= <-]. eexists. split; [reflexivity|]. split; assumption.
Qed.

(** C7 at a document whose second page cannot be read: the sections of its
    first page are dropped with it, and the run on it and a sound document
    returns a report with the two sections of the sound document. *)
Lemma failed_document_is_isolated_witness :
  extract_structure_try (Ok half_broken_doc) = Raise FileDataError
  /\ length (extract_structure (Ok sound_doc)) = 2%nat
  /\ extract_structure (Ok half_broken_doc) = []
  /\ exists report,
       analyze_run (fun _ _ => 0.5%float) (py "2025-07-28T10:00:00.123456Z") guide_docs
         (py "Travel Planner") (py "Plan a trip") None = Ok report
       /\ length (extracted_sections report) = 2%nat.
Proof.
  assert (Hfail : extract_structure_try (Ok half_broken_doc) = Raise FileDataError)
    by (vm_compute; reflexivity).
  destruct (failed_document_is_isolated (Ok half_broken_doc) FileDataError Hfail)
    as [Hnone Hruns].
  split; [exact Hfail|]. split; [vm_compute; reflexivity|]. split; [exact Hnone|].
  destruct (Hruns (fun _ _ => 0.5%float) (py "2025-07-28T10:00:00.123456Z")
              [(py "guide.pdf", Ok sound_doc)] [] (py "broken.pdf")
              (py "Travel Planner") (py "Plan a trip") None)
    as (_ & _ & _ & Hsome & Hlists).
  destruct Hsome as (report & Hrun); [vm_compute; discriminate|].
  destruct (Hlists report Hrun) as (without & Hw & He & _).
  exists report. split; [exact Hrun|].
  rewrite He. vm_compute in Hw. injection Hw as <-. reflexivity.
Defined.

(** ** C9: the two section lists of the report *)

Lemma enumerate_lookup {A} (l : list A) (i : nat) :
  enumerate l !! i = (fun x => (i, x)) <$> l !! i.
Proof. unfold enumerate. apply list_lookup_imap. Qed.

Lemma length_enumerate {A} (l : list A) : length (enumerate l) = length l.
Proof. unfold enumerate. apply length_imap. Qed.

Lemma format_extracted_lookup (sel : list Section) (i : nat) :
  _format_extracted_sections sel !! i
  = (fun s => {| ExtractedSection.document := document s;
                 ExtractedSection.section_title := text (parsed s);
                 ExtractedSection.importance_rank := i + 1;
                 ExtractedSection.page_number := page (parsed s) + 1 |}) <$> sel !! i.
Proof.
  unfold _format_extracted_sections.
  rewrite list_lookup_fmap, enumerate_lookup.
  destruct (sel !! i); reflexivity.
Qed.

Lemma format_sub_lookup (sel : list Section) (i : nat) :
  _format_sub_sections sel !! i
  = (fun s => {| SubSection.document := document s;
                 SubSection.refined_text := refine_text (content (parsed s));
                 SubSection.page_number := page (parsed s) + 1 |}) <$> sel !! i.
Proof. unfold _format_sub_sections. apply list_lookup_fmap. Qed.

(** C9. In every report the lists [extracted_sections] and
    [subsection_analysis] are as long as the selection, and their entries at
    position [i] are both built from the selected section at position [i]:
    they carry its document and its page index plus 1, and the first carries
    the rank [i + 1]. *)
Theorem report_lists_aligned (cos_sim : str -> str -> float) (now : str)
    (docs : list (str * PdfFile)) (persona_role job_task : str)
    (challenge_info : option Json) :
  let report := analyze cos_sim now docs persona_role job_task challenge_info in
  let chosen := analyze_selection cos_sim docs persona_role job_task in
  length (extracted_sections report) = length (subsection_analysis report)
  /\ length (extracted_sections report) = length chosen
  /\ (forall i s, chosen !! i = Some s ->
        exists e a,
          extracted_sections report !! i = Some e
          /\ subsection_analysis report !! i = Some a
          /\ ExtractedSection.document e = document s
          /\ SubSection.document a = document s
          /\ ExtractedSection.page_number e = (page (parsed s) + 1)%nat
          /\ SubSection.page_number a = (page (parsed s) + 1)%nat
          /\ ExtractedSection.importance_rank e = (i + 1)%nat)
  /\ (forall i e a,
        extracted_sections report !! i = Some e ->
        subsection_analysis report !! i = Some a ->
        ExtractedSection.document e = SubSection.document a
        /\ ExtractedSection.page_number e = SubSection.page_number a).
Proof.
  intros report chosen.
  assert (He : extracted_sections report = _format_extracted_sections chosen)
    by reflexivity.
  assert (Ha : subsection_analysis report = _format_sub_sections chosen)
    by reflexivity.
  rewrite He, Ha. clearbody chosen. clear.
  assert (Hle : length (_format_extracted_sections chosen) = length chosen).
  { unfold _format_extracted_sections. rewrite length_map, length_enumerate.
    reflexivity. }
  assert (Hla : length (_format_sub_sections chosen) = length chosen).
  { unfold _format_sub_sections. apply length_map. }
  split; [congruence|]. split; [exact Hle|]. split.
  - intros i s Hi. eexists. eexists.
    rewrite format_extracted_lookup, format_sub_lookup, Hi. simpl.
    repeat split.
  - intros i e a. rewrite format_extracted_lookup, format_sub_lookup.
    destruct (chosen !! i) as [s|]; simpl; [|discriminate].
    intros [= <-] [= <-]. simpl. auto.
Qed.

(** ** C10: the optional [challenge_info] of the metadata *)

(** C10. The metadata of the report has a [challenge_info] key exactly when
    the request has one whose value is truthy, and then with that value: an
    absent key and an empty object both leave the metadata without it. *)
Theorem challenge_info_passthrough (cos_sim : str -> str -> float) (now : str)
    (pdf_dir : str -> PdfFile) (input_data : Request) :
  let out := Metadata.challenge_info (metadata (main cos_sim now pdf_dir input_data)) in
  (request_challenge_info input_data = None -> out = None)
  /\ (request_challenge_info input_data = Some (JDict []) -> out = None)
  /\ (forall info, request_challenge_info input_data = Some info ->
        truthy info = false -> out = None)
  /\ (forall info, request_challenge_info input_data = Some info ->
        truthy info = true -> out = Some info)
  /\ (forall info, out = Some info ->
        request_challenge_info input_data = Some info /\ truthy info = true).
Proof.
  intros out.
  assert (E : out = let info := default (JDict []) (request_challenge_info input_data) in
                    if truthy info then Some info else None) by reflexivity.
  rewrite E. clear E out.
  destruct (request_challenge_info input_data) as [info|]; simpl.
  - split; [discriminate|].
    split; [intros [= ->]; reflexivity|].
    split; [intros info' [= ->] ->; reflexivity|].
    split; [intros info' [= ->] ->; reflexivity|].
    intros info'. destruct (truthy info) eqn:Ht; [|discriminate].
    intros [= <-]. auto.
  - split; [reflexivity|].
    split; [discriminate|].
    split; [discriminate|].
    split; discriminate.
Qed.

(** ** The definitions at work *)

Example heading_patterns :
  map (fun s => _is_heading_pattern (py s))
    ["1.2 Scope"; "3 Results"; "IV. Methods"; "b) Costs"; "mix. Nuts";
     "1.2Scope"; "AB. Costs"; "Plain words"; ""]%string
  = [true; true; true; true; true; false; false; false; false].
Proof. vm_compute. reflexivity. Qed.

Example normalize_example :
  strip (collapse_whitespace (py "  Two   words ")) = py "Two words".
Proof. vm_compute. reflexivity. Qed.

(** A body of 602 characters whose only full stop is at position 350: the
    excerpt ends with it. Without the full stop the excerpt is the first 300
    characters and "...". *)
Example refine_text_sentence :
  refine_text (replicate 350 "a"%char ++ py ". " ++ replicate 250 "b"%char)
  = replicate 350 "a"%char ++ py ".".
Proof. vm_compute. reflexivity. Qed.

Example refine_text_fallback :
  refine_text (replicate 600 "a"%char) = replicate 300 "a"%char ++ py "...".
Proof. vm_compute. reflexivity. Qed.

Example refine_text_short :
  refine_text (py "Short   body.  ") = py "Short body.".
Proof. vm_compute. reflexivity. Qed.

(** The first page of [half_broken_doc]: the seed section takes the opening
    line, the bold line opens a section on page 0. *)
Example extract_structure_sound_doc :
  extract_structure (Ok sound_doc)
  = [ {| level := title; text := py "Introduction"; page := 0;
         content := py "Some opening words that are not a heading " |};
      {| level := H1; text := py "Nightlife"; page := 0;
         content := py "Some opening words that are not a heading " |} ].
Proof. vm_compute. reflexivity. Qed.

Example select_with_negative_max : _select_diverse_sections scenario_ranked (-1) = [].
Proof. vm_compute. reflexivity. Qed.

Example select_two : _select_diverse_sections scenario_ranked 2 = [a1; a2].
Proof. vm_compute. reflexivity. Qed.

(** * Further properties of the parser *)

(** ** Heading patterns *)

Lemma lang_plus_class (p : ascii -> bool) (s : str) :
  s <> [] -> forallb p s = true -> lang (Plus (Class p)) s.
Proof.
  unfold Plus. destruct s as [|c s]; [congruence|]. intros _ Hall.
  simpl in Hall. apply andb_true_iff in Hall as [Hc Hs].
  change (c :: s) with ([c] ++ s). constructor; [constructor; exact Hc|].
  clear c Hc. induction s as [|c s IH]; [constructor|].
  simpl in Hs. apply andb_true_iff in Hs as [Hc Hs].
  change (c :: s) with ([c] ++ s). constructor; [constructor; exact Hc | auto].
Qed.

(** A line that starts with a number followed by whitespace matches the
    decimal outline pattern: the [.] or [)] after the number is optional. *)
Theorem number_then_space_is_heading_pattern (digits : str) (w : ascii) (rest : str) :
  digits <> [] -> forallb is_digit digits = true -> is_space w = true ->
  _is_heading_pattern (digits ++ w :: rest) = true.
Proof.
  intros Hne Hdigits Hw. apply _is_heading_pattern_correct.
  exists (digits ++ [w]), rest. split; [rewrite <- app_assoc; reflexivity|].
  left. unfold decimal_outline.
  apply lang_cat; [apply lang_plus_class; assumption|].
  apply (lang_cat _ _ [] [w]); [constructor|].
  apply (lang_cat _ _ [] [w]); [apply lang_alt_r; constructor|].
  apply lang_plus_class; [discriminate | simpl; rewrite Hw; reflexivity].
Qed.

Lemma number_then_space_is_heading_pattern_witness :
  _is_heading_pattern (py "2023 was a good year") = true.
Proof.
  apply (number_then_space_is_heading_pattern (py "2023") " "%char (py "was a good year"));
    [discriminate | reflexivity | reflexivity].
Defined.

Lemma is_roman_is_letter (c : ascii) : is_roman c = true -> is_letter c = true.
Proof.
  unfold is_roman, one_of. simpl. rewrite !orb_true_iff.
  intros H. repeat destruct H as [H|H]; try discriminate;
    apply Ascii.eqb_eq in H; subst c; reflexivity.
Qed.

(** No pattern matches a text whose first character is neither a decimal
    digit, that is a character of the class [\d] (see [is_digit]), nor a letter
    of A-Z, a-z: each of the three patterns begins with one of these. *)
Theorem heading_pattern_first_char (c : ascii) (rest : str) :
  is_digit c = false -> is_letter c = false ->
  _is_heading_pattern (c :: rest) = false.
Proof.
  intros Hd Hl. apply not_true_is_false. intros H.
  apply _is_heading_pattern_correct in H as (p & q & E & H).
  assert (Hfirst : forall (cls : ascii -> bool) (r : regex) (s : str),
            (lang (Cat (Plus (Class cls)) r) s \/ lang (Cat (Class cls) r) s) ->
            exists d s', s = d :: s' /\ cls d = true).
  { intros cls r s [Hs|Hs]; inversion Hs as [| |? ? s1 s2 H1 H2| | | |]; subst.
    - apply lang_plus_class_inv in H1 as (d & s' & -> & Hcls). simpl. eauto.
    - apply lang_class_inv in H1 as (d & -> & Hcls). simpl. eauto. }
  destruct H as [H | [H | H]].
  - destruct (Hfirst _ _ _ (or_introl H)) as (d & s' & -> & Hcls).
    injection E as ->. congruence.
  - destruct (Hfirst _ _ _ (or_introl H)) as (d & s' & -> & Hcls).
    injection E as ->. apply is_roman_is_letter in Hcls. congruence.
  - destruct (Hfirst _ _ _ (or_intror H)) as (d & s' & -> & Hcls).
    injection E as ->. congruence.
Qed.

Lemma heading_pattern_first_char_witness :
  _is_heading_pattern (py "(a) bracketed first") = false.
Proof.
  apply (heading_pattern_first_char "("%char (py "a) bracketed first")); reflexivity.
Defined.

(** ** The segmentation loops *)

(** A property of the state that every line keeps, and that carries over
    from one page to the next, holds when the scan ends. The state that
    [process_line] sees on page [n] satisfies [P (S n)]. *)
Lemma scan_invariant (avg : float) (P : nat -> SegState -> Prop) :
  (forall n st ln st', P (S n) st -> process_line avg n st ln = Ok st' -> P (S n) st') ->
  (forall n st, P n st -> P (S n) st) ->
  forall (doc : list Page) (st st' : SegState),
    P 0%nat st ->
    for_each (process_page avg) (enumerate doc) st = Ok st' ->
    P (length doc) st'.
Proof.
  intros Hline Hnext doc. unfold enumerate.
  assert (Hgen : forall (l : list Page) (k : nat) (st st' : SegState),
            P k st ->
            for_each (process_page avg) (imap (fun i x => ((k + i)%nat, x)) l) st = Ok st' ->
            P (k + length l)%nat st').
  { induction l as [|pg l IH]; intros k st st' Hst Hrun.
    - simpl in Hrun. injection Hrun as <-. rewrite Nat.add_0_r. exact Hst.
    - rewrite imap_cons in Hrun. simpl in Hrun.
      apply bind_Ok_inv in Hrun as (st1 & Hpage & Hrest).
      assert (H1 : P (S k) st1).
      { unfold process_page in Hpage. simpl in Hpage.
        apply bind_Ok_inv in Hpage as (blocks & _ & Hblocks).
        rewrite Nat.add_0_r in Hblocks. revert Hblocks.
        apply (for_each_invariant (P (S k))); [|apply Hnext, Hst].
        intros s b s' Hs. unfold process_block.
        destruct (lines b) as [ls|]; [|intros [= <-]; exact Hs].
        apply (for_each_invariant (P (S k))); [|exact Hs].
        intros s0 ln s0'. apply Hline. }
      rewrite (imap_ext _ (fun i x => ((S k + i)%nat, x))) in Hrest
        by (intros i x _; simpl; f_equal; lia).
      apply IH in Hrest; [|exact H1].
      simpl. replace (k + S (length l))%nat with (S k + length l)%nat by lia.
      exact Hrest. }
  intros st st' Hst Hrun. apply (Hgen doc 0%nat st st' Hst Hrun).
Qed.

(** What a successful run of the [try] block returns. *)
Lemma extract_structure_try_Ok_inv (pdf : PdfFile) (secs : list Heading) :
  extract_structure_try pdf = Ok secs ->
  exists doc avg st,
    pdf = Ok doc
    /\ _calculate_average_font_size doc = Ok avg
    /\ for_each (process_page avg) (enumerate doc) initial_state = Ok st
    /\ secs = close_current st.
Proof.
  unfold extract_structure_try. intros Hrun.
  apply bind_Ok_inv in Hrun as (doc & Hdoc & Hrun).
  apply bind_Ok_inv in Hrun as (avg & Havg & Hrun).
  apply bind_Ok_inv in Hrun as (st & Hscan & Hclose).
  exists doc, avg, st. repeat split; try assumption.
  unfold close_current. destruct (strip _); injection Hclose as <-; reflexivity.
Qed.

Lemma close_current_cases (st : SegState) :
  close_current st = sections st
  \/ close_current st = sections st ++ [current_heading st].
Proof. unfold close_current. destruct (strip _); auto. Qed.

(** The three outcomes of a line. *)
Lemma process_line_cases avg n st ln st' :
  process_line avg n st ln = Ok st' ->
  st' = st
  \/ (sections st' = sections st
      /\ level (current_heading st') = level (current_heading st)
      /\ text (current_heading st') = text (current_heading st)
      /\ page (current_heading st') = page (current_heading st))
  \/ ((sections st' = sections st \/ sections st' = sections st ++ [current_heading st])
      /\ level (current_heading st') = H1
      /\ text (current_heading st') = line_text_of ln
      /\ line_text_of ln <> []
      /\ line_text_of ln <> py "Introduction"
      /\ page (current_heading st') = n
      /\ content (current_heading st') = []).
Proof.
  unfold process_line.
  destruct (line_text_of ln) as [|c lt] eqn:Et; [intros [= <-]; auto|].
  destruct (sorted_by bbox_x0 (spans ln)) as [|sp rest]; [discriminate|].
  destruct (_ && _)%bool eqn:Hc; intros [= <-]; simpl.
  - right. right. apply andb_true_iff in Hc as [_ Hc].
    apply negb_true_iff in Hc. unfold str_eqb in Hc.
    apply bool_decide_eq_false in Hc.
    repeat split; try reflexivity; try discriminate; try exact Hc.
    destruct (strip _); auto.
  - right. left. auto.
Qed.

Lemma strip_trimmed (s : str) : trimmed (strip s).
Proof.
  split.
  - intros c Hc. unfold strip in Hc.
    destruct (rstrip_split (lstrip s)) as (q & E & _).
    apply (lstrip_head s). rewrite E. apply head_app_Some. left. exact Hc.
  - intros c. unfold strip. apply rstrip_last.
Qed.

(** Every section that [extract_structure] returns is either the seed
    section, headed "Introduction" on page 0, or a section opened by a heading
    line: then its heading is not empty, is not "Introduction" and has no
    whitespace at either end. *)
Theorem emitted_sections_well_formed (pdf : PdfFile) :
  Forall well_formed (extract_structure pdf).
Proof.
  unfold extract_structure.
  destruct (extract_structure_try pdf) as [secs|e] eqn:Hrun; [|constructor].
  apply extract_structure_try_Ok_inv in Hrun as (doc & avg & st & _ & _ & Hscan & ->).
  pose (P := fun (_ : nat) (s : SegState) =>
               well_formed (current_heading s) /\ Forall well_formed (sections s)).
  assert (Hst : P (length doc) st).
  { revert Hscan. apply (scan_invariant avg P).
    - intros n s ln s' [Hcur Hsecs] Hline.
      apply process_line_cases in Hline
        as [-> | [(Es & El & Et & Ep) | (Es & El & Et & Hne & Hintro & Ep & _)]].
      + split; assumption.
      + split; [|rewrite Es; exact Hsecs].
        unfold well_formed in *. rewrite El, Et, Ep. exact Hcur.
      + split.
        * unfold well_formed. rewrite El, Et.
          repeat split; try assumption; apply strip_trimmed.
        * destruct Es as [-> | ->]; [exact Hsecs|].
          apply Forall_app. split; [exact Hsecs | constructor; [exact Hcur | constructor]].
    - intros n s H. exact H.
    - split; [|constructor]. unfold well_formed. simpl. auto. }
  destruct Hst as [Hcur Hsecs].
  destruct (close_current_cases st) as [-> | ->]; [exact Hsecs|].
  apply Forall_app. split; [exact Hsecs | constructor; [exact Hcur | constructor]].
Qed.

(** Only the first section that [extract_structure] returns can be the seed
    section: every later one was opened by a heading line. *)
Theorem seed_section_is_first (pdf : PdfFile) :
  Forall (fun h => level h = H1) (tail (extract_structure pdf)).
Proof.
  unfold extract_structure.
  destruct (extract_structure_try pdf) as [secs|e] eqn:Hrun; [|constructor].
  apply extract_structure_try_Ok_inv in Hrun as (doc & avg & st & _ & _ & Hscan & ->).
  pose (opened := fun h : Heading => level h = H1).
  pose (P := fun (_ : nat) (s : SegState) =>
               (level (current_heading s) = title /\ sections s = [])
               \/ (level (current_heading s) = H1 /\ Forall opened (tail (sections s)))).
  assert (Hst : P (length doc) st).
  { revert Hscan. apply (scan_invariant avg P).
    - intros n s ln s' Hs Hline.
      apply process_line_cases in Hline
        as [-> | [(Es & El & _) | (Es & El & _)]].
      + exact Hs.
      + unfold P. rewrite Es, El. exact Hs.
      + right. split; [exact El|].
        destruct Es as [-> | ->]; destruct Hs as [[Hl Hnil] | [Hl Htl]].
        * rewrite Hnil. constructor.
        * exact Htl.
        * rewrite Hnil. constructor.
        * destruct (sections s) as [|h0 tl]; [constructor|]. simpl in *.
          apply Forall_app. split; [exact Htl | constructor; [exact Hl | constructor]].
    - intros n s H. exact H.
    - left. split; reflexivity. }
  destruct (close_current_cases st) as [-> | ->]; destruct Hst as [[Hl Hnil] | [Hl Htl]].
  - rewrite Hnil. constructor.
  - exact Htl.
  - rewrite Hnil. constructor.
  - destruct (sections st) as [|h0 tl]; [constructor|]. simpl in *.
    apply Forall_app. split; [exact Htl | constructor; [exact Hl | constructor]].
Qed.

Lemma StronglySorted_le_lookup (l : list nat) (i j a b : nat) :
  StronglySorted le l -> (i <= j)%nat -> l !! i = Some a -> l !! j = Some b ->
  (a <= b)%nat.
Proof.
  intros Hs. revert i j. induction Hs as [|x l Hs IH Hx]; intros i j Hij Hi Hj.
  - destruct i; discriminate.
  - destruct i as [|i], j as [|j]; simpl in *; try lia.
    + injection Hi as <-. injection Hj as <-. lia.
    + injection Hi as <-. rewrite Forall_forall in Hx.
      apply Hx. apply list_elem_of_lookup. eauto.
    + eapply IH; [|eassumption..]. lia.
Qed.

(** The sections of a document come out in page order, and each carries the
    index of a page of the document. *)
Theorem sections_in_page_order (doc : list Page) :
  let secs := extract_structure (Ok doc) in
  (forall i j hi hj, (i <= j)%nat -> secs !! i = Some hi -> secs !! j = Some hj ->
     (page hi <= page hj)%nat)
  /\ Forall (fun h => (page h < length doc)%nat) secs.
Proof.
  intros secs.
  assert (Hgoal : StronglySorted le (map page secs)
                  /\ Forall (fun h => (page h <= Nat.pred (length doc))%nat) secs).
  { subst secs. unfold extract_structure.
    destruct (extract_structure_try (Ok doc)) as [secs|e] eqn:Hrun;
      [|split; constructor].
    apply extract_structure_try_Ok_inv in Hrun
      as (doc' & avg & st & [= <-] & _ & Hscan & ->).
    pose (P := fun (n : nat) (s : SegState) =>
                 (page (current_heading s) <= Nat.pred n)%nat
                 /\ Forall (fun h => (page h <= page (current_heading s))%nat) (sections s)
                 /\ StronglySorted le (map page (sections s))).
    assert (Hclose : forall n s, P n s ->
              StronglySorted le (map page (sections s ++ [current_heading s]))
              /\ Forall (fun h => (page h <= Nat.pred n)%nat)
                   (sections s ++ [current_heading s])).
    { intros n s (Hcur & Hle & Hsorted). split.
      - rewrite map_app. apply StronglySorted_app_2; [|exact Hsorted|repeat constructor].
        intros x1 x2 H1 H2. apply list_elem_of_In, in_map_iff in H1 as (h & <- & Hh).
        apply list_elem_of_In in Hh.
        simpl in H2. apply list_elem_of_singleton in H2 as ->.
        rewrite Forall_forall in Hle. apply Hle, Hh.
      - apply Forall_app. split; [|constructor; [exact Hcur | constructor]].
        eapply Forall_impl; [exact Hle|]. simpl. intros h Hh. lia. }
    assert (Hst : P (length doc) st).
    { revert Hscan. apply (scan_invariant avg P).
      - intros n s ln s' Hs Hline. pose proof Hs as (Hcur & Hle & Hsorted).
        simpl in Hcur.
        apply process_line_cases in Hline
          as [-> | [(Es & _ & _ & Ep) | (Es & _ & _ & _ & _ & Ep & _)]].
        + exact Hs.
        + unfold P. rewrite Es, Ep. exact Hs.
        + destruct (Hclose _ _ Hs) as [Hs1 Hs2]. simpl in Hs2.
          unfold P. rewrite Ep. simpl. split; [lia|].
          destruct Es as [-> | ->].
          * split; [|exact Hsorted].
            eapply Forall_impl; [exact Hle|]. simpl. intros h Hh. lia.
          * split; assumption.
      - intros n s (Hcur & Hle & Hsorted). unfold P. repeat split; try assumption.
        simpl. lia.
      - unfold P. simpl. repeat split; constructor. }
    destruct (close_current_cases st) as [-> | ->].
    - destruct Hst as (Hcur & Hle & Hsorted). split; [exact Hsorted|].
      eapply Forall_impl; [exact Hle|]. simpl. intros h Hh. lia.
    - apply (Hclose _ _ Hst). }
  destruct Hgoal as [Hsorted Hbound]. split.
  - intros i j hi hj Hij Hi Hj.
    apply (StronglySorted_le_lookup (map page secs) i j); try assumption.
    + change (map page secs) with (page <$> secs). rewrite list_lookup_fmap, Hi. reflexivity.
    + change (map page secs) with (page <$> secs). rewrite list_lookup_fmap, Hj. reflexivity.
  - destruct doc as [|pg doc'].
    + subst secs. constructor.
    + eapply Forall_impl; [exact Hbound|]. simpl. intros h Hh. lia.
Qed.

(** A loop whose body succeeds on every element of the list succeeds. *)
Lemma for_each_total {A S} (body : S -> A -> result S) (l : list A) (s : S) :
  Forall (fun a => forall s0, exists s1, body s0 a = Ok s1) l ->
  exists s', for_each body l s = Ok s'.
Proof.
  intros Hl. revert s. induction Hl as [|a l Ha Hl IH]; intros s; simpl.
  - eauto.
  - destruct (Ha s) as (s1 & ->). simpl. apply IH.
Qed.

(** Line 40, [first_span = spans[0]], never raises: a line without spans has
    no text and is skipped before. *)
Lemma process_line_total avg n st ln : exists st', process_line avg n st ln = Ok st'.
Proof.
  unfold process_line.
  destruct (line_text_of ln) as [|c lt] eqn:Et; [eauto|].
  destruct (line_text_first_span ln) as (sp & rest & ->); [rewrite Et; discriminate|].
  destruct (_ && _)%bool; eauto.
Qed.

Lemma enumerate_Forall {A} (Q : A -> Prop) (l : list A) :
  Forall Q l -> Forall (fun numbered => Q (snd numbered)) (enumerate l).
Proof.
  intros Hl. apply Forall_forall. intros [i x] Hin. unfold enumerate in Hin.
  apply elem_of_lookup_imap in Hin as (i' & x' & [= -> ->] & Hx').
  rewrite Forall_forall in Hl. apply Hl. apply list_elem_of_lookup. eauto.
Qed.

(** When PyMuPDF reads every page and the average font size is computed,
    [extract_structure] goes through its [try] block without an exception:
    the only exceptions of the parser are those of PyMuPDF and the division
    by zero of [_calculate_average_font_size]. *)
Theorem extraction_succeeds (doc : list Page) (avg : float) :
  pages_readable doc ->
  _calculate_average_font_size doc = Ok avg ->
  exists st,
    for_each (process_page avg) (enumerate doc) initial_state = Ok st
    /\ extract_structure_try (Ok doc) = Ok (close_current st)
    /\ extract_structure (Ok doc) = close_current st.
Proof.
  intros Hread Havg.
  destruct (for_each_total (process_page avg) (enumerate doc) initial_state)
    as (st & Hscan).
  { apply (enumerate_Forall _ doc) in Hread.
    eapply Forall_impl; [exact Hread|]. simpl.
    intros [n pg] (blocks & Hblocks) s0. unfold process_page. simpl in *.
    rewrite Hblocks. simpl.
    apply for_each_total. apply Forall_forall. intros b _ s1.
    unfold process_block. destruct (lines b) as [ls|]; [|eauto].
    apply for_each_total. apply Forall_forall. intros ln _ s2.
    apply process_line_total. }
  assert (Htry : extract_structure_try (Ok doc) = Ok (close_current st)).
  { rewrite (extract_structure_try_unfold doc avg Havg).
    fold initial_state. rewrite Hscan. reflexivity. }
  exists st. split; [exact Hscan|]. split; [exact Htry|].
  unfold extract_structure. rewrite Htry. reflexivity.
Qed.

Lemma extraction_succeeds_witness :
  exists st avg,
    pages_readable sound_doc
    /\ _calculate_average_font_size sound_doc = Ok avg
    /\ extract_structure (Ok sound_doc) = close_current st.
Proof.
  assert (Hread : pages_readable sound_doc) by (repeat constructor; eexists; reflexivity).
  destruct (_calculate_average_font_size sound_doc) as [avg|e] eqn:Havg;
    [|vm_compute in Havg; discriminate].
  destruct (extraction_succeeds sound_doc avg Hread Havg) as (st & _ & _ & Hout).
  exists st, avg. auto.
Defined.

(** A loop whose body leaves the state as it is on every element returns the
    state it started from. *)
Lemma for_each_fixed {A S} (body : S -> A -> result S) (l : list A) (s : S) :
  Forall (fun a => body s a = Ok s) l -> for_each body l s = Ok s.
Proof.
  induction 1 as [|a l Ha Hl IH]; simpl; [reflexivity|].
  rewrite Ha. simpl. exact IH.
Qed.

(** A document in which no line has text, such as a scanned document, gives
    no section, and the scan itself raises nothing. *)
Theorem no_text_no_sections (doc : list Page) :
  no_line_text doc ->
  extract_structure (Ok doc) = []
  /\ forall avg, _calculate_average_font_size doc = Ok avg ->
       extract_structure_try (Ok doc) = Ok [].
Proof.
  intros Hdoc.
  assert (Htry : forall avg, _calculate_average_font_size doc = Ok avg ->
                   extract_structure_try (Ok doc) = Ok []).
  { intros avg Havg. rewrite (extract_structure_try_unfold doc avg Havg).
    fold initial_state.
    rewrite (for_each_fixed (process_page avg) (enumerate doc) initial_state);
      [reflexivity|].
    apply (enumerate_Forall _ doc) in Hdoc.
    eapply Forall_impl; [exact Hdoc|]. simpl.
    intros [n pg] (blocks & Hblocks & Hlines). unfold process_page. simpl in *.
    rewrite Hblocks. simpl. apply for_each_fixed.
    eapply Forall_impl; [exact Hlines|]. simpl. intros b Hb.
    unfold process_block. destruct (lines b) as [ls|]; [|reflexivity].
    apply for_each_fixed. eapply Forall_impl; [exact (Hb ls eq_refl)|]. simpl.
    intros ln Hln. unfold process_line. rewrite Hln. reflexivity. }
  split; [|exact Htry].
  unfold extract_structure.
  destruct (_calculate_average_font_size doc) as [avg|e] eqn:Havg.
  - rewrite (Htry avg eq_refl). reflexivity.
  - unfold extract_structure_try.
    change (Ok doc ≫= ?k) with (k doc). cbv beta.
    rewrite Havg. reflexivity.
Qed.

Lemma no_text_no_sections_witness :
  no_line_text image_doc /\ extract_structure (Ok image_doc) = [].
Proof.
  assert (H : no_line_text image_doc).
  { unfold no_line_text, image_doc.
    assert (Hpg : exists blocks,
              get_text_dict_no_ligatures image_page = Ok blocks
              /\ Forall (fun b => forall ls, lines b = Some ls ->
                                   Forall (fun ln => line_text_of ln = []) ls) blocks).
    { exists [ {| lines := None |} ]. split; [reflexivity|].
      constructor; [|constructor]. intros ls Hls. discriminate Hls. }
    constructor; [exact Hpg|]. constructor; [exact Hpg | constructor]. }
  split; [exact H | exact (proj1 (no_text_no_sections image_doc H))].
Defined.

(** * Further properties of the analyst *)

(** ** Python's [in] on strings *)

Lemma startswith_correct (p s : str) :
  startswith p s = true <-> exists q, s = p ++ q.
Proof.
  revert s. induction p as [|a p IH]; intros s; simpl.
  - split; [intros _; exists s; reflexivity | reflexivity].
  - destruct s as [|b s].
    + split; [discriminate | intros (q & E); discriminate E].
    + rewrite andb_true_iff, IH. split.
      * intros [Hab (q & ->)]. apply Ascii.eqb_eq in Hab as ->. eauto.
      * intros (q & [= -> ->]). split; [apply Ascii.eqb_refl | eauto].
Qed.

Lemma str_contains_correct (sub s : str) :
  str_contains sub s = true <-> exists p q, s = p ++ sub ++ q.
Proof.
  induction s as [|c s IH]; simpl.
  - rewrite orb_false_r, startswith_correct. split.
    + intros (q & E). exists [], q. exact E.
    + intros (p & q & E). destruct p as [|a p]; [eauto | discriminate E].
  - rewrite orb_true_iff, startswith_correct, IH. split.
    + intros [(q & E) | (p & q & ->)]; [exists [], q; exact E | exists (c :: p), q; reflexivity].
    + intros (p & q & E). destruct p as [|a p]; [left; eauto|].
      injection E as -> ->. right. eauto.
Qed.

(** A keyword counts for a section exactly when it occurs, as a run of
    consecutive characters, in the lower-cased title or in the lower-cased
    content: inside a longer word as well. *)
Theorem keyword_matches_substring (h : Heading) (keyword : str) :
  keyword_matches (lower (text h)) (lower (content h)) keyword = true <->
  (exists p q, lower (text h) = p ++ keyword ++ q)
  \/ (exists p q, lower (content h) = p ++ keyword ++ q).
Proof. unfold keyword_matches. rewrite orb_true_iff, !str_contains_correct. tauto. Qed.

(** ** Ranking *)

Lemma insert_by_Permutation {A} (key : A -> float) (x : A) (l : list A) :
  insert_by key x l ≡ₚ x :: l.
Proof.
  induction l as [|y l IH]; simpl; [reflexivity|].
  destruct (PrimFloat.ltb _ _); [|reflexivity].
  rewrite IH. apply Permutation_swap.
Qed.

Lemma sorted_by_Permutation {A} (key : A -> float) (l : list A) :
  sorted_by key l ≡ₚ l.
Proof.
  induction l as [|x l IH]; simpl; [reflexivity|].
  rewrite insert_by_Permutation, IH. reflexivity.
Qed.

Lemma sorted_by_reverse_Permutation {A} (key : A -> float) (l : list A) :
  sorted_by_reverse key l ≡ₚ l.
Proof.
  unfold sorted_by_reverse.
  rewrite <- Permutation_rev, sorted_by_Permutation, <- Permutation_rev. reflexivity.
Qed.

(** Ranking neither loses nor duplicates a section: the ranked list is a
    rearrangement of the scored sections of all documents. *)
Theorem ranking_is_permutation (cos_sim : str -> str -> float)
    (docs : list (str * PdfFile)) (persona_role job_task : str) :
  ranked_sections cos_sim docs persona_role job_task
  ≡ₚ map (score_section cos_sim (enhanced_query persona_role job_task))
       (all_sections docs).
Proof. apply sorted_by_reverse_Permutation. Qed.

(** ** Selection *)

Lemma select_subseteq (ranked : list Section) (max_sections : Z) :
  _select_diverse_sections ranked max_sections ⊆ ranked.
Proof.
  rewrite select_unfold.
  destruct (pass2_extends max_sections ranked (selected (pass1 ranked max_sections)))
    as (fill & -> & Hfill & _).
  destruct (pass1_extends max_sections ranked {| selected := []; doc_count := ∅ |})
    as (added & Eadd & Hadd).
  simpl in Eadd. fold (pass1 ranked max_sections) in Eadd. rewrite Eadd.
  intros s [Hs | Hs]%elem_of_app.
  - apply (sublist_subseteq _ _ Hadd), Hs.
  - apply (sublist_subseteq _ _ Hfill), Hs.
Qed.

(** The top-ranked section is always selected, and selected first, as soon
    as one section may be selected. *)
Theorem top_section_is_selected_first (top : Section) (rest : list Section)
    (max_sections : Z) :
  1 <= max_sections ->
  head (_select_diverse_sections (top :: rest) max_sections) = Some top.
Proof.
  intros Hmax. rewrite select_unfold.
  destruct (pass2_extends max_sections (top :: rest)
              (selected (pass1 (top :: rest) max_sections)))
    as (fill & -> & _ & _).
  unfold pass1. simpl.
  assert (Hstep : pass1_step max_sections {| selected := []; doc_count := ∅ |} top
                  = {| selected := [top];
                       doc_count := <[document top := 1%nat]> ∅ |}).
  { unfold pass1_step, get_count. simpl. rewrite lookup_empty. simpl.
    change (Z.of_nat 0) with 0.
    destruct (Z.ltb_spec 0 max_sections); [reflexivity | lia]. }
  rewrite Hstep.
  destruct (pass1_extends max_sections rest
              {| selected := [top]; doc_count := <[document top := 1%nat]> ∅ |})
    as (added & -> & _).
  reflexivity.
Qed.

Lemma top_section_is_selected_first_witness :
  head (_select_diverse_sections scenario_ranked 5) = Some a1.
Proof.
  apply (top_section_is_selected_first a1 [a2; a3; a4; b1; b2; b3] 5). lia.
Defined.

(** ** The report *)

Lemma select_within (ranked : list Section) (max_sections : Z) :
  within max_sections (_select_diverse_sections ranked max_sections).
Proof.
  rewrite select_unfold. apply pass2_within. unfold pass1. apply pass1_within.
  unfold within. simpl. lia.
Qed.

Lemma all_sections_elem_of (docs : list (str * PdfFile)) (dh : str * Heading) :
  dh ∈ all_sections docs ->
  exists pdf, (fst dh, pdf) ∈ docs /\ snd dh ∈ extract_structure pdf.
Proof.
  induction docs as [|[name pdf] docs IH].
  - intros H. inversion H.
  - rewrite all_sections_cons. simpl. intros [H | H]%elem_of_app.
    + apply list_elem_of_fmap in H as (h & -> & Hh). simpl.
      exists pdf. split; [left | exact Hh].
    + destruct (IH H) as (pdf' & Hin & Hh). exists pdf'. split; [right; exact Hin | exact Hh].
Qed.

(** A selected section is a section of one of the input documents, as
    [extract_structure] returned it. *)
Lemma selection_from_documents cos_sim (docs : list (str * PdfFile))
    (persona_role job_task : str) (s : Section) :
  s ∈ analyze_selection cos_sim docs persona_role job_task ->
  exists pdf, (document s, pdf) ∈ docs /\ parsed s ∈ extract_structure pdf.
Proof.
  unfold analyze_selection. intros Hs.
  apply select_subseteq in Hs.
  unfold ranked_sections in Hs. rewrite sorted_by_reverse_Permutation in Hs.
  apply list_elem_of_fmap in Hs as (dh & -> & Hdh).
  apply all_sections_elem_of in Hdh. exact Hdh.
Qed.

(** Every entry of [extracted_sections] names a section that
    [extract_structure] found in one of the input documents: it carries the
    name of the document, the heading of the section and its page index plus
    1. The report invents no section and no document. *)
Theorem extracted_sections_from_documents (cos_sim : str -> str -> float) (now : str)
    (docs : list (str * PdfFile)) (persona_role job_task : str)
    (challenge_info : option Json) (e : ExtractedSection.t) :
  let report := analyze cos_sim now docs persona_role job_task challenge_info in
  e ∈ extracted_sections report ->
  ExtractedSection.document e ∈ Metadata.input_documents (metadata report)
  /\ exists pdf h,
       (ExtractedSection.document e, pdf) ∈ docs
       /\ h ∈ extract_structure pdf
       /\ ExtractedSection.section_title e = text h
       /\ ExtractedSection.page_number e = (page h + 1)%nat.
Proof.
  intros report He.
  apply list_elem_of_lookup in He as (i & Hi).
  change (extracted_sections report)
    with (_format_extracted_sections
            (analyze_selection cos_sim docs persona_role job_task)) in Hi.
  rewrite format_extracted_lookup in Hi.
  destruct (analyze_selection cos_sim docs persona_role job_task !! i) as [s|] eqn:Hs;
    [|discriminate].
  injection Hi as <-. simpl.
  assert (Hin : s ∈ analyze_selection cos_sim docs persona_role job_task)
    by (apply list_elem_of_lookup; eauto).
  apply selection_from_documents in Hin as (pdf & Hdoc & Hh).
  split.
  - change (document s) with (fst (document s, pdf)).
    apply list_elem_of_fmap. exists (document s, pdf). split; [reflexivity | exact Hdoc].
  - exists pdf, (parsed s). auto.
Qed.

Lemma extracted_sections_from_documents_witness :
  exists e, e ∈ extracted_sections guide_report
    /\ ExtractedSection.document e ∈ Metadata.input_documents (metadata guide_report).
Proof.
  destruct (extracted_sections guide_report) as [|e l] eqn:E;
    [vm_compute in E; discriminate|].
  assert (Hin : e ∈ extracted_sections guide_report) by (rewrite E; left).
  exists e. split; [rewrite <- E; exact Hin|].
  unfold guide_report in Hin |- *.
  exact (proj1 (extracted_sections_from_documents _ _ _ _ _ _ e Hin)).
Defined.

(** The report lists at most five sections, and their importance ranks are
    1, 2, ... in list order. *)
Theorem report_ranks (cos_sim : str -> str -> float) (now : str)
    (docs : list (str * PdfFile)) (persona_role job_task : str)
    (challenge_info : option Json) :
  let report := analyze cos_sim now docs persona_role job_task challenge_info in
  (length (extracted_sections report) <= 5)%nat
  /\ (length (subsection_analysis report) <= 5)%nat
  /\ map ExtractedSection.importance_rank (extracted_sections report)
     = seq 1 (length (extracted_sections report)).
Proof.
  intros report.
  set (chosen := analyze_selection cos_sim docs persona_role job_task).
  assert (He : extracted_sections report = _format_extracted_sections chosen)
    by reflexivity.
  assert (Ha : subsection_analysis report = _format_sub_sections chosen)
    by reflexivity.
  assert (Hlen : (length chosen <= 5)%nat).
  { pose proof (select_within (ranked_sections cos_sim docs persona_role job_task) 5) as H.
    unfold within in H. fold (analyze_selection cos_sim docs persona_role job_task) in H.
    fold chosen in H. lia. }
  assert (Hle : length (_format_extracted_sections chosen) = length chosen).
  { unfold _format_extracted_sections. rewrite length_map, length_enumerate.
    reflexivity. }
  rewrite He, Ha, Hle. clearbody chosen.
  split; [exact Hlen|]. split.
  - unfold _format_sub_sections. rewrite length_map. exact Hlen.
  - apply list_eq. intros i.
    change (map ExtractedSection.importance_rank (_format_extracted_sections chosen))
      with (ExtractedSection.importance_rank <$> _format_extracted_sections chosen).
    rewrite list_lookup_fmap, format_extracted_lookup.
    destruct (chosen !! i) as [s|] eqn:Hi; simpl.
    + apply lookup_lt_Some in Hi. rewrite lookup_seq_lt by exact Hi.
      f_equal. lia.
    + apply lookup_ge_None in Hi. rewrite lookup_seq_ge by exact Hi. reflexivity.
Qed.

(** ** The refined text *)

(** The body is blank exactly when it has no character other than
    whitespace. *)
Lemma strip_nil_iff (s : str) : strip s = [] <-> List.filter not_space s = [].
Proof.
  rewrite <- (strip_keeps_text s). split; [intros ->; reflexivity|].
  destruct (strip s) as [|c t] eqn:E; [reflexivity|].
  destruct (strip_trimmed s) as [Hhead _]. rewrite E in Hhead.
  specialize (Hhead c eq_refl). simpl. unfold not_space at 1. rewrite Hhead.
  discriminate.
Qed.

(** Length and emptiness of the excerpt, for the properties below. *)
Lemma refine_text_length_blank (body : str) :
  (length (refine_text body) <= 500)%nat
  /\ (refine_text body = [] <-> strip body = []).
Proof.
  assert (Hblank : strip (collapse_whitespace body) = [] <-> strip body = []).
  { rewrite !strip_nil_iff. unfold collapse_whitespace.
    rewrite collapse_keeps_text. reflexivity. }
  unfold refine_text. set (n := strip (collapse_whitespace body)) in *.
  destruct (Nat.ltb_spec 500 (length n)) as [Hlong|Hshort].
  2: { split; [exact Hshort | exact Hblank]. }
  set (window := take 400 n). set (m := Z.max _ _).
  assert (Hw : length window = 400%nat) by (unfold window; rewrite length_take; lia).
  assert (Hn : n <> []) by (intros E; rewrite E in Hlong; simpl in Hlong; lia).
  destruct (Z.ltb_spec 200 m) as [Hbig|Hsmall].
  - unfold slice_to. destruct (Z.leb_spec 0 (m + 1)); [|lia].
    clearbody m window.
    split.
    + rewrite length_take, Hw. lia.
    + split.
      * intros E. apply (f_equal length) in E. rewrite length_take, Hw in E.
        simpl in E. lia.
      * intros E. apply Hblank in E. contradiction.
  - split.
    + rewrite length_app, length_take. change (length (py "...")) with 3%nat. lia.
    + split.
      * intros E. apply (f_equal length) in E. rewrite length_app in E.
        change (length (py "...")) with 3%nat in E. simpl in E. lia.
      * intros E. apply Hblank in E. contradiction.
Qed.

(** The excerpt never has more than 500 characters, and it is empty only for
    a blank body. *)
Theorem refine_text_bounded (body : str) :
  (length (refine_text body) <= 500)%nat
  /\ (refine_text body = [] <-> strip body = []).
Proof. exact (refine_text_length_blank body). Qed.

(** Every [refined_text] of the report is a non-empty excerpt of at most 500
    characters: the sections that reach the refiner have a body that is not
    blank. *)
Theorem report_excerpts_bounded (cos_sim : str -> str -> float) (now : str)
    (docs : list (str * PdfFile)) (persona_role job_task : str)
    (challenge_info : option Json) :
  let report := analyze cos_sim now docs persona_role job_task challenge_info in
  Forall (fun a => SubSection.refined_text a <> []
                   /\ (length (SubSection.refined_text a) <= 500)%nat)
         (subsection_analysis report).
Proof.
  intros report. apply Forall_forall. intros a Ha.
  change (subsection_analysis report)
    with (_format_sub_sections
            (analyze_selection cos_sim docs persona_role job_task)) in Ha.
  unfold _format_sub_sections in Ha.
  apply list_elem_of_fmap in Ha as (s & -> & Hs). simpl.
  destruct (refine_text_length_blank (content (parsed s))) as [Hlen Hnil].
  split; [|exact Hlen].
  apply selection_from_documents in Hs as (pdf & _ & Hh).
  pose proof (extract_structure_nonblank pdf) as Hnb.
  rewrite Forall_forall in Hnb. specialize (Hnb _ Hh). unfold nonblank in Hnb.
  intros E. apply Hnb, Hnil, E.
Qed.

(** ** When the selection is the ranking, and when it is capped *)

Lemma section_eqb_refl (s : Section) :
  PrimFloat.eqb (relevance s) (relevance s) = true -> section_eqb s s = true.
Proof.
  intros Hrel. unfold section_eqb, heading_eqb, str_eqb.
  rewrite Hrel, !bool_decide_eq_true_2, Nat.eqb_refl by reflexivity.
  destruct (level (parsed s)); reflexivity.
Qed.

Lemma pass1_admits_all (max_sections : Z) (l : list Section) (st : SelectionState) :
  pass1_invariant st ->
  Forall (fun s => (count_doc (document s) (selected st ++ l) <= 2)%nat) l ->
  Z.of_nat (length (selected st ++ l)) <= max_sections ->
  selected (fold_left (pass1_step max_sections) l st) = selected st ++ l.
Proof.
  revert st. induction l as [|a l IH]; intros st Hinv Hcap Hlen; simpl.
  - rewrite app_nil_r. reflexivity.
  - assert (Hstep : selected (pass1_step max_sections st a) = selected st ++ [a]).
    { unfold pass1_step. destruct (Hinv (document a)) as [Hcount _].
      inversion Hcap as [|? ? Ha _]; subst.
      rewrite count_doc_app in Ha. unfold count_doc at 2 in Ha. simpl in Ha.
      unfold str_eqb at 1 in Ha. rewrite bool_decide_eq_true_2 in Ha by reflexivity.
      simpl in Ha. rewrite length_app in Hlen. simpl in Hlen.
      destruct (Nat.ltb_spec (get_count (doc_count st) (document a)) 2); [|lia].
      destruct (Z.ltb_spec (Z.of_nat (length (selected st))) max_sections); [|lia].
      reflexivity. }
    rewrite IH.
    + rewrite Hstep, <- app_assoc. reflexivity.
    + apply pass1_step_invariant, Hinv.
    + rewrite Hstep, <- app_assoc. simpl. inversion Hcap; assumption.
    + rewrite Hstep, <- app_assoc. exact Hlen.
Qed.

Lemma pass2_adds_nothing (max_sections : Z) (l sel : list Section) :
  Forall (fun s => section_in s sel = true) l -> pass2 l max_sections sel = sel.
Proof.
  induction 1 as [|a l Ha Hl IH]; simpl; [reflexivity|].
  destruct (Z.leb _ _); [reflexivity|]. rewrite Ha. exact IH.
Qed.

(** When the ranked list fits, with at most [max_sections] sections and at
    most 2 of any document, the selection is the ranked list itself: nothing
    is dropped and nothing is moved. The scores are taken to be numbers (a
    score that is not a number is not equal to itself). *)
Theorem selection_is_ranking_when_it_fits (ranked : list Section) (max_sections : Z) :
  Forall (fun s => PrimFloat.eqb (relevance s) (relevance s) = true) ranked ->
  Forall (fun s => (count_doc (document s) ranked <= 2)%nat) ranked ->
  Z.of_nat (length ranked) <= max_sections ->
  _select_diverse_sections ranked max_sections = ranked.
Proof.
  intros Hnum Hcap Hlen. rewrite select_unfold.
  assert (Hpass1 : selected (pass1 ranked max_sections) = ranked).
  { unfold pass1. apply (pass1_admits_all max_sections ranked
                           {| selected := []; doc_count := ∅ |}); simpl; try assumption.
    intros d. unfold get_count, count_doc. simpl. rewrite lookup_empty. simpl. lia. }
  rewrite Hpass1. apply pass2_adds_nothing.
  apply Forall_forall. intros s Hs. unfold section_in.
  apply existsb_exists. exists s. split; [apply list_elem_of_In, Hs|].
  apply section_eqb_refl. rewrite Forall_forall in Hnum. apply Hnum, Hs.
Qed.

Lemma selection_is_ranking_when_it_fits_witness :
  _select_diverse_sections [a1; a2; b1; b2] 5 = [a1; a2; b1; b2].
Proof.
  apply selection_is_ranking_when_it_fits.
  - repeat constructor.
  - repeat (constructor; [apply Nat.leb_le; vm_compute; reflexivity|]). constructor.
  - simpl. lia.
Defined.

Lemma pass2_full (max_sections : Z) (l sel : list Section) :
  max_sections <= Z.of_nat (length sel) -> pass2 l max_sections sel = sel.
Proof.
  intros H. destruct l as [|a l]; simpl; [reflexivity|].
  destruct (Z.leb_spec max_sections (Z.of_nat (length sel))); [reflexivity | lia].
Qed.

(** The cap of 2 sections per document is exceeded only to fill slots that
    pass 1 left empty: either no document has more than 2 sections in the
    output, or pass 1 admitted fewer than [max_sections] sections. *)
Theorem cap_exceeded_only_to_fill (ranked : list Section) (max_sections : Z) :
  (forall doc_name,
     (count_doc doc_name (_select_diverse_sections ranked max_sections) <= 2)%nat)
  \/ Z.of_nat (length (selected (pass1 ranked max_sections))) < max_sections.
Proof.
  destruct (Z.lt_ge_cases (Z.of_nat (length (selected (pass1 ranked max_sections))))
              max_sections) as [Hroom | Hfull]; [right; exact Hroom|].
  left. intros d. rewrite select_unfold, pass2_full by exact Hfull.
  apply pass1_invariant_holds.
Qed.

(** ** Refining twice *)

Lemma lstrip_fixed (s : str) :
  (forall c, head s = Some c -> is_space c = false) -> lstrip s = s.
Proof.
  destruct s as [|c s]; [reflexivity|]. intros H. simpl.
  rewrite (H c eq_refl). reflexivity.
Qed.

Lemma strip_fixed (s : str) : trimmed s -> strip s = s.
Proof.
  intros [Hhead Hlast]. unfold strip, rstrip.
  rewrite (lstrip_fixed s Hhead), lstrip_fixed, reverse_involutive; [reflexivity|].
  intros c. rewrite head_reverse. apply Hlast.
Qed.

Lemma collapse_fixed (in_run : bool) (s : str) :
  (forall c, c ∈ s -> is_space c = true -> c = " "%char) ->
  (forall i, s !! i = Some " "%char -> s !! S i <> Some " "%char) ->
  (in_run = true -> forall c, head s = Some c -> is_space c = false) ->
  collapse_from in_run s = s.
Proof.
  revert in_run. induction s as [|c s IH]; intros in_run Hchars Hadj Hrun; simpl;
    [reflexivity|].
  assert (Hchars' : forall d, d ∈ s -> is_space d = true -> d = " "%char)
    by (intros d Hd; apply Hchars; right; exact Hd).
  assert (Hadj' : forall i, s !! i = Some " "%char -> s !! S i <> Some " "%char)
    by (intros i; apply (Hadj (S i))).
  destruct (is_space c) eqn:Hc.
  - assert (c = " "%char) as -> by (apply Hchars; [left | exact Hc]).
    destruct in_run; [specialize (Hrun eq_refl " "%char eq_refl); discriminate Hrun|].
    f_equal. apply IH; try assumption.
    intros _ d Hd. destruct (is_space d) eqn:Hsp; [|reflexivity].
    exfalso. destruct s as [|d' s']; [discriminate|]. simpl in Hd. injection Hd as ->.
    assert (d = " "%char) as -> by (apply Hchars'; [left | exact Hsp]).
    apply (Hadj 0%nat); reflexivity.
  - f_equal. apply IH; try assumption. discriminate.
Qed.

(** Normalised text is left as it is by normalisation. *)
Lemma normalize_fixed (n : str) : normalized n -> strip (collapse_whitespace n) = n.
Proof.
  intros (Hchars & Hadj & Hhead & Hlast). unfold collapse_whitespace.
  rewrite collapse_fixed by (try assumption; discriminate).
  apply strip_fixed. split; assumption.
Qed.

Lemma normalized_prefix (p q : str) :
  normalized (p ++ q) -> (forall c, last p = Some c -> is_space c = false) ->
  normalized p.
Proof.
  intros (Hchars & Hadj & Hhead & _) Hlast. repeat split.
  - intros c Hc. apply Hchars. apply elem_of_app. left. exact Hc.
  - intros i Hi Hnext. apply (Hadj i); apply lookup_app_l_Some; assumption.
  - intros c Hc. apply Hhead. apply head_app_Some. left. exact Hc.
  - exact Hlast.
Qed.

Lemma elem_of_ellipsis (c : ascii) : c ∈ py "..." -> c = "."%char.
Proof.
  intros H. repeat (apply elem_of_cons in H as [-> | H]; [reflexivity|]).
  inversion H.
Qed.

Lemma normalized_ellipsis (p q : str) :
  normalized (p ++ q) -> p <> [] -> normalized (p ++ py "...").
Proof.
  intros (Hchars & Hadj & Hhead & _) Hne. repeat split.
  - intros c [Hc | Hc]%elem_of_app Hsp.
    + apply Hchars; [apply elem_of_app; left; exact Hc | exact Hsp].
    + apply elem_of_ellipsis in Hc as ->. discriminate Hsp.
  - intros i Hi Hnext.
    assert (Hfrom : forall j, (p ++ py "...") !! j = Some " "%char -> p !! j = Some " "%char).
    { intros j Hj. apply lookup_app_Some in Hj as [Hj | [_ Hj]]; [exact Hj|].
      assert (Hin : " "%char ∈ py "...") by (apply list_elem_of_lookup; eauto).
      apply elem_of_ellipsis in Hin. discriminate Hin. }
    apply Hfrom in Hi, Hnext.
    apply (Hadj i); apply lookup_app_l_Some; assumption.
  - intros c Hc. apply Hhead. destruct p as [|a p]; [congruence|]. exact Hc.
  - intros c. rewrite last_app. simpl. intros [= <-]. reflexivity.
Qed.

Lemma sentence_end_not_space (c : ascii) : is_sentence_end c -> is_space c = false.
Proof. intros [-> | [-> | ->]]; reflexivity. Qed.

(** The excerpt is normalised text. *)
Lemma refine_text_normalized (body : str) : normalized (refine_text body).
Proof.
  pose proof (normalize_normalized body) as Hn.
  unfold refine_text. set (n := strip (collapse_whitespace body)) in *.
  destruct (Nat.ltb_spec 500 (length n)) as [Hlong|Hshort]; [|exact Hn].
  set (window := take 400 n). set (m := Z.max _ _).
  destruct (Z.ltb_spec 200 m) as [Hbig|Hsmall].
  - destruct (last_sentence_end_spec window) as [[Em _] | (k & Em & Hk)];
      fold m in Em; [lia|].
    destruct Hk as [(c & Hc & Hend) _].
    assert (Hk400 : (k < 400)%nat).
    { apply lookup_lt_Some in Hc. unfold window in Hc. rewrite length_take in Hc. lia. }
    assert (Eout : slice_to window (m + 1) = take (k + 1) n).
    { unfold slice_to. destruct (Z.leb_spec 0 (m + 1)); [|lia].
      replace (Z.to_nat (m + 1)) with (k + 1)%nat by lia.
      unfold window. rewrite take_take. f_equal. lia. }
    rewrite Eout. apply (normalized_prefix _ (drop (k + 1) n)).
    + rewrite take_drop. exact Hn.
    + intros c'. rewrite last_lookup, length_take.
      replace (Nat.pred ((k + 1) `min` length n)) with k by lia.
      rewrite lookup_take_lt by lia.
      unfold window in Hc. rewrite lookup_take_lt in Hc by lia.
      rewrite Hc. intros [= <-]. apply sentence_end_not_space, Hend.
  - apply (normalized_ellipsis _ (drop 300 n)).
    + rewrite take_drop. exact Hn.
    + intros E. apply (f_equal length) in E. rewrite length_take in E.
      change (length (@nil ascii)) with 0%nat in E. lia.
Qed.

(** Refining an excerpt again changes nothing. *)
Theorem refine_text_idempotent (body : str) :
  refine_text (refine_text body) = refine_text body.
Proof.
  destruct (refine_text_length_blank body) as [Hlen _].
  pose proof (refine_text_normalized body) as Hnorm.
  set (out := refine_text body) in *.
  unfold refine_text. rewrite (normalize_fixed out Hnorm).
  destruct (Nat.ltb_spec 500 (length out)); [lia | reflexivity].
Qed.
